(** * Texas Hold'em engine: a shallow embedding and its checked properties

    The development follows the three JavaScript modules of the repository:

    - [PokerUtils]      poker-utils.js        (hand evaluator, winners)
    - [PokerGameEngine] poker-game-engine.js  (round / hand state machine)
    - [PokerAIDecision] poker-ai-decision.js  (fallback policy, intent mapper)

    Chip amounts are JavaScript numbers in the source.  The engine floors
    every stack to an integer ([ensureValidStack]), so chips are modelled as
    [Z]; confidences, pot-relative thresholds and [Math.random()] draws are
    modelled as exact rationals [Q].  Objects mutated in place (players, the
    engine itself) become explicit state passing.

    The amount handed to [validateAction] and [applyAction] is not floored.
    [PokerGameEngine] and [GameFlow] are the engine on whole-number chips
    (stacks, street bets, pot and amounts are integers), where the binary64
    arithmetic of the source is exact; every statement about them is a
    statement about whole-number chips.  [DoubleEngine] follows
    [validateAction] and [applyAction] once more on binary64 doubles, for
    the amounts that are not whole numbers: a fraction, or [NaN]. *)

From Stdlib Require Import ZArith QArith Qround Qminmax Lia Bool Ascii Permutation.
From Stdlib Require SpecFloat.
From stdpp Require Import base list strings pretty sorting.

#[local] Open Scope string_scope.
#[local] Open Scope list_scope.
#[local] Open Scope Z_scope.

(** ** JavaScript helpers shared by the three modules *)

Module JS.

(** [Math.max(...xs)]: [None] stands for [-Infinity], the value on no argument. *)
Definition mathMax (xs : list Z) : option Z :=
  match xs with
  | [] => None
  | x :: rest => Some (fold_left Z.max rest x)
  end.

(** [[...new Set(xs)]]: duplicates dropped, first occurrences kept in order. *)
Definition setOf (xs : list Z) : list Z :=
  fold_left (fun seen x => if existsb (Z.eqb x) seen then seen else seen ++ [x]) xs [].

(** [xs.includes(s)] on an array of strings. *)
Definition includes (xs : list string) (s : string) : bool :=
  existsb (String.eqb s) xs.

(** [xs.includes(n)] on an array of numbers. *)
Definition includesNum (xs : list Z) (n : Z) : bool :=
  existsb (Z.eqb n) xs.

(** [xs.sort((a, b) => b - a)]: descending order. *)
Fixpoint insertDesc (x : Z) (xs : list Z) : list Z :=
  match xs with
  | [] => [x]
  | y :: ys => if y <? x then x :: y :: ys else y :: insertDesc x ys
  end.

Definition sortDesc (xs : list Z) : list Z :=
  fold_right insertDesc [] xs.

End JS.

(** ** Cards

    A card is the object [{ suit, rank }] built by [createShuffledDeck]: one
    of its four suit names and one of its thirteen rank characters. *)

Module Cards.

Inductive Suit := hearts | diamonds | clubs | spades.
Inductive Rank := R2 | R3 | R4 | R5 | R6 | R7 | R8 | R9 | RT | RJ | RQ | RK | RA.

Record Card := mkCard { suit : Suit; rank : Rank }.

#[global] Instance Suit_eq_dec : EqDecision Suit.
Proof. solve_decision. Defined.

End Cards.

(** ** poker-utils.js *)

Module PokerUtils.
Import Cards.

(** [getCardRankValue(rank)]; the digits go through [parseInt]. *)
Definition getCardRankValue (r : Rank) : Z :=
  match r with
  | RA => 14 | RK => 13 | RQ => 12 | RJ => 11 | RT => 10
  | R9 => 9 | R8 => 8 | R7 => 7 | R6 => 6 | R5 => 5 | R4 => 4 | R3 => 3 | R2 => 2
  end.

(** [rankCounts[rank] = (rankCounts[rank] || 0) + 1].  The keys are integers,
    which a JavaScript object enumerates in ascending order. *)
Fixpoint bumpRank (k : Z) (m : list (Z * Z)) : list (Z * Z) :=
  match m with
  | [] => [(k, 1)]
  | (k', n) :: rest =>
      if k =? k' then (k', n + 1) :: rest
      else if k <? k' then (k, 1) :: (k', n) :: rest
      else (k', n) :: bumpRank k rest
  end.

(** [suitCounts[suit] = (suitCounts[suit] || 0) + 1]; string keys are
    enumerated in insertion order. *)
Fixpoint bumpSuit (k : Suit) (m : list (Suit * Z)) : list (Suit * Z) :=
  match m with
  | [] => [(k, 1)]
  | (k', n) :: rest =>
      if decide (k = k') then (k', n + 1) :: rest else (k', n) :: bumpSuit k rest
  end.

(** The inner [for (j ...)] loop: four steps down from position [i]. *)
Definition isSeqAt (u : list Z) (i : nat) : bool :=
  forallb (fun j => nth (i + j) u 0 - 1 =? nth (i + j + 1) u 0) (seq 0 4).

(** The outer [for (i ...)] loop with its [break]: is there a start position
    [i <= u.length - 5] from which five ranks run down? *)
Definition hasRun (u : list Z) : bool :=
  (5 <=? length u)%nat && existsb (isSeqAt u) (seq 0 (length u - 5 + 1)).

(** The five [includes] tests of the wheel A-2-3-4-5. *)
Definition hasWheel (u : list Z) : bool :=
  JS.includesNum u 14 && JS.includesNum u 5 && JS.includesNum u 4
  && JS.includesNum u 3 && JS.includesNum u 2.

(** The royal test made once a suited run has been found. *)
Definition hasRoyal (u : list Z) : bool :=
  match u with
  | top :: _ =>
      (top =? 14) && JS.includesNum u 13 && JS.includesNum u 12
      && JS.includesNum u 11 && JS.includesNum u 10
  | [] => false
  end.

(** One turn of [for (const suit in suitCounts)], on the pair of flags
    [(isStraightFlush, isRoyalFlush)]. *)
Definition suitedStep (allCards : list Card) (flags : bool * bool)
  (entry : Suit * Z) : bool * bool :=
  let '(sf, rf) := flags in
  let '(s, cnt) := entry in
  if 5 <=? cnt then
    let suitedRanks :=
      JS.sortDesc (map (fun c => getCardRankValue (rank c))
                     (List.filter (fun c => bool_decide (suit c = s)) allCards)) in
    let uniqueSuitedRanks := JS.setOf suitedRanks in
    if (5 <=? length uniqueSuitedRanks)%nat then
      let found := existsb (isSeqAt uniqueSuitedRanks)
                     (seq 0 (length uniqueSuitedRanks - 5 + 1)) in
      let sf1 := sf || found in
      let rf1 := rf || (found && hasRoyal uniqueSuitedRanks) in
      (sf1 || (negb sf1 && hasWheel uniqueSuitedRanks), rf1)
    else (sf, rf)
  else (sf, rf).

Record Evaluation := mkEvaluation {
  category : string;
  value : Z;
  description : string;
  details : option (list (Z * Z) * list (Suit * Z))
}.

(** [sortedRankCounts[i] === n]; an index past the end reads [undefined]. *)
Definition countIs (sorted : list Z) (i : nat) (n : Z) : bool :=
  match nth_error sorted i with
  | Some c => c =? n
  | None => false
  end.

(** [evaluatePokerHand(holeCards, communityCards)] *)
Definition evaluatePokerHand (holeCards communityCards : list Card) : Evaluation :=
  let allCards := holeCards ++ communityCards in
  if (length allCards <? 5)%nat then
    mkEvaluation "high_card" 0 "Incomplete hand" None
  else
    let ranks := JS.sortDesc (map (fun c => getCardRankValue (rank c)) allCards) in
    let suits := map suit allCards in
    let rankCounts := fold_left (fun m r => bumpRank r m) ranks [] in
    let suitCounts := fold_left (fun m s => bumpSuit s m) suits [] in
    let sortedRankCounts := JS.sortDesc (map snd rankCounts) in
    let maxSuitCount := JS.mathMax (map snd suitCounts) in
    let uniqueRanks := JS.sortDesc (JS.setOf ranks) in
    let isWheel := hasWheel uniqueRanks in
    let isStraight := negb isWheel && hasRun uniqueRanks in
    let isFlush := match maxSuitCount with Some m => 5 <=? m | None => false end in
    let '(isStraightFlush, isRoyalFlush) :=
      if isFlush then fold_left (suitedStep allCards) suitCounts (false, false)
      else (false, false) in
    let result (c : string) (v : Z) (d : string) :=
      mkEvaluation c v d (Some (rankCounts, suitCounts)) in
    if isRoyalFlush then result "royal_flush" 10 "Royal Flush"
    else if isStraightFlush then result "straight_flush" 9 "Straight Flush"
    else if countIs sortedRankCounts 0 4 then result "four_of_a_kind" 8 "Four of a Kind"
    else if countIs sortedRankCounts 0 3 && countIs sortedRankCounts 1 2
    then result "full_house" 7 "Full House"
    else if isFlush then result "flush" 6 "Flush"
    else if isStraight || isWheel then result "straight" 5 "Straight"
    else if countIs sortedRankCounts 0 3 then result "three_of_a_kind" 4 "Three of a Kind"
    else if countIs sortedRankCounts 0 2 && countIs sortedRankCounts 1 2
    then result "two_pair" 3 "Two Pair"
    else if countIs sortedRankCounts 0 2 then result "one_pair" 2 "One Pair"
    else result "high_card" 1 "High Card".

(** An entry of [playerHands]. *)
Record HandInfo := mkHandInfo {
  active : bool;
  cards : list Card
}.

(** The [index] and [value] of an entry of [evaluations]; the [category] and
    [details] carried along for active players are never read. *)
Definition evaluations (playerHands : list HandInfo) (communityCards : list Card)
  : list (nat * Z) :=
  imap (fun index handInfo =>
          if negb (active handInfo) then (index, -1)
          else (index, value (evaluatePokerHand (cards handInfo) communityCards)))
    playerHands.

(** [determineWinners(playerHands, communityCards)] *)
Definition determineWinners (playerHands : list HandInfo) (communityCards : list Card)
  : list nat :=
  if (length playerHands =? 0)%nat then []
  else
    let evals := evaluations playerHands communityCards in
    let maxHandValue := JS.mathMax (map snd evals) in
    map fst
      (List.filter
         (fun e => match maxHandValue with Some m => snd e =? m | None => false end)
         evals).

End PokerUtils.

(** ** poker-game-engine.js *)

Module PokerGameEngine.
Import Cards.

(** A bot or the human: the four mutable fields the state machine touches. *)
Record Player := mkPlayer {
  stack : Z;
  folded : bool;
  betInCurrentRound : Z;
  isActive : bool
}.

(** One [gameLog] entry; the wall-clock [timestamp] is left out. *)
Record LogEntry := mkLog {
  event : string;
  round : string;
  logPotSize : Z
}.

Record Engine := mkEngine {
  bots : list Player;
  humanPlayer : Player;
  currentRound : string;
  potSize : Z;
  boardCards : list Card;
  deck : list Card;
  gameLog : list LogEntry
}.

(** The [player] argument of the engine's methods is an object reference:
    [this.humanPlayer] or [this.bots[i]] ([undefined] when [i] is out of
    range). *)
Inductive PlayerRef := Human | Bot (i : nat).

Definition getPlayer (e : Engine) (r : PlayerRef) : option Player :=
  match r with
  | Human => Some (humanPlayer e)
  | Bot i => bots e !! i
  end.

(** Writing the fields of the referenced object back into the engine. *)
Definition setPlayer (e : Engine) (r : PlayerRef) (p : Player) : Engine :=
  match r with
  | Human => mkEngine (bots e) p (currentRound e) (potSize e)
               (boardCards e) (deck e) (gameLog e)
  | Bot i => mkEngine (<[i := p]> (bots e)) (humanPlayer e) (currentRound e)
               (potSize e) (boardCards e) (deck e) (gameLog e)
  end.

Definition setPot (e : Engine) (pot : Z) : Engine :=
  mkEngine (bots e) (humanPlayer e) (currentRound e) pot
    (boardCards e) (deck e) (gameLog e).

(** [logEvent(event)] *)
Definition logEvent (e : Engine) (ev : string) : Engine :=
  mkEngine (bots e) (humanPlayer e) (currentRound e) (potSize e)
    (boardCards e) (deck e)
    (gameLog e ++ [mkLog ev (currentRound e) (potSize e)]).

(** The per-hand fields of a player as [resetRoundState] rewrites them. *)
Definition resetPlayer (p : Player) : Player :=
  mkPlayer (stack p) false 0 true.

(** [resetRoundState()].  The deck [createShuffledDeck()] returns is passed
    in as [shuffled]; that function also writes the first of the two log
    lines, once the round name, the pot and the board have been cleared. *)
Definition resetRoundState (e : Engine) (shuffled : list Card) : Engine :=
  let e1 := logEvent
              (mkEngine (bots e) (humanPlayer e) "preflop" 0 [] (deck e) (gameLog e))
              ("Deck created with " +:+ pretty (length shuffled)
                 +:+ " cards and shuffled") in
  logEvent
    (mkEngine (map resetPlayer (bots e1)) (resetPlayer (humanPlayer e1))
       (currentRound e1) (potSize e1) (boardCards e1) shuffled (gameLog e1))
    "Round state reset for new hand".

(** [calculateCallAmount(player)] *)
Definition highestBet (e : Engine) : Z :=
  let h := fold_left
             (fun h b => if negb (folded b) && (h <? betInCurrentRound b)
                         then betInCurrentRound b else h)
             (bots e) 0 in
  if negb (folded (humanPlayer e)) && (h <? betInCurrentRound (humanPlayer e))
  then betInCurrentRound (humanPlayer e) else h.

Definition calculateCallAmount (e : Engine) (p : Player) : Z :=
  Z.max 0 (highestBet e - betInCurrentRound p).

(** The record returned by [applyAction]; absent fields are [None]. *)
Record ActionResult := mkResult {
  success : bool;
  action : string;
  amount : option Z;
  remainingStack : option Z;
  error : option string
}.

(** The mutation of [case 'fold']. *)
Definition foldPlayer (p : Player) : Player :=
  mkPlayer (stack p) true (betInCurrentRound p) false.

(** The mutation shared by [case 'call'] and [case 'raise']: when [chips] is
    positive it leaves the stack for the street bet, otherwise nothing moves. *)
Definition payPlayer (p : Player) (chips : Z) : Player :=
  if 0 <? chips
  then mkPlayer (stack p - chips) (folded p) (betInCurrentRound p + chips) (isActive p)
  else p.

Definition moveChips (e : Engine) (r : PlayerRef) (p : Player) (chips : Z) : Engine :=
  if 0 <? chips
  then setPot (setPlayer e r (payPlayer p chips)) (potSize e + chips)
  else e.

(** The [catch] branch of [applyAction]. *)
Definition applyFailed (e : Engine) (act msg : string) : Engine * ActionResult :=
  (logEvent e ("Error applying action " +:+ act +:+ ": " +:+ msg),
   mkResult false act None None (Some msg)).

(** The message of the [TypeError] raised on a field access of [undefined];
    its wording is the runtime's. *)
Definition typeErrorMessage : string := "Cannot read properties of undefined".

(** The [return] of the [try] block.  It runs after the [switch], so [e] and
    [p] are the engine and the player as already mutated. *)
Definition applySucceeded (e : Engine) (p : Player) (act : string) (amt : Z)
  : Engine * ActionResult :=
  (e, mkResult true act
        (Some (if String.eqb act "call"
               then Z.min (calculateCallAmount e p) (stack p)
               else if String.eqb act "raise"
               then Z.min amt (stack p)
               else 0))
        (Some (stack p)) None).

(** [applyAction(player, action, amount)] *)
Definition applyAction (e : Engine) (r : PlayerRef) (act : string) (amt : Z)
  : Engine * ActionResult :=
  if String.eqb act "fold" then
    match getPlayer e r with
    | None => applyFailed e act typeErrorMessage
    | Some p => applySucceeded (setPlayer e r (foldPlayer p)) (foldPlayer p) act amt
    end
  else if String.eqb act "call" then
    match getPlayer e r with
    | None => applyFailed e act typeErrorMessage
    | Some p =>
        let callAmount := Z.min (calculateCallAmount e p) (stack p) in
        applySucceeded (moveChips e r p callAmount) (payPlayer p callAmount) act amt
    end
  else if String.eqb act "raise" then
    match getPlayer e r with
    | None => applyFailed e act typeErrorMessage
    | Some p =>
        let actualRaise := Z.min amt (stack p) in
        applySucceeded (moveChips e r p actualRaise) (payPlayer p actualRaise) act amt
    end
  else applyFailed e act ("Unknown action: " +:+ act).

(** [updatePotSize()] *)
Definition updatePotSize (e : Engine) : Engine :=
  let total := fold_left (fun t b => t + betInCurrentRound b) (bots e) 0 in
  setPot e (total + betInCurrentRound (humanPlayer e)).

(** [this.deck.shift()] *)
Definition burnCard (e : Engine) : Engine :=
  mkEngine (bots e) (humanPlayer e) (currentRound e) (potSize e)
    (boardCards e) (tail (deck e)) (gameLog e).

(** [if (this.deck.length > 0) this.boardCards.push(this.deck.shift())] *)
Definition dealCard (e : Engine) : Engine :=
  match deck e with
  | [] => e
  | c :: rest =>
      mkEngine (bots e) (humanPlayer e) (currentRound e) (potSize e)
        (boardCards e ++ [c]) rest (gameLog e)
  end.

(** [dealFlop()], [dealTurn()], [dealRiver()]: [inr msg] is the thrown error. *)
Definition dealFlop (e : Engine) : Engine + string :=
  if (length (deck e) <? 4)%nat
  then inr "Not enough cards in deck to deal flop"
  else inl (dealCard (dealCard (dealCard (burnCard e)))).

Definition dealTurn (e : Engine) : Engine + string :=
  if (length (deck e) <? 2)%nat
  then inr "Not enough cards in deck to deal turn"
  else inl (dealCard (burnCard e)).

Definition dealRiver (e : Engine) : Engine + string :=
  if (length (deck e) <? 2)%nat
  then inr "Not enough cards in deck to deal river"
  else inl (dealCard (burnCard e)).

Definition validRounds : list string := ["preflop"; "flop"; "turn"; "river"].

Definition resetBet (p : Player) : Player :=
  mkPlayer (stack p) (folded p) 0 (isActive p).

(** The first half of [startRound]: the round name, the copy of the board,
    the pot recomputation and then the reset of the street bets. *)
Definition enterRound (e : Engine) (rnd : string) (communityCards : list Card) : Engine :=
  let e1 := mkEngine (bots e) (humanPlayer e) rnd (potSize e)
              communityCards (deck e) (gameLog e) in
  let e2 := updatePotSize e1 in
  mkEngine (map resetBet (bots e2)) (resetBet (humanPlayer e2)) (currentRound e2)
    (potSize e2) (boardCards e2) (deck e2) (gameLog e2).

(** The tail of [startRound]: [getBotStrategicIntent()] asks the advisory
    service and discards the answer, so only its log line reaches the engine. *)
Definition finishRound (e : Engine) (rnd : string) : Engine :=
  let e1 := logEvent e "AI strategic intent obtained for round" in
  logEvent e1
    ("Round " +:+ rnd +:+ " started with "
       +:+ pretty (length (List.filter (fun b => negb (folded b)) (bots e1)))
       +:+ " active bots").

(** [startRound(round, communityCards)]; the second component is the error
    thrown, if any.  A failed deal throws after the pot and the bets have
    been rewritten. *)
Definition startRound (e : Engine) (rnd : string) (communityCards : list Card)
  : Engine * option string :=
  if negb (JS.includes validRounds rnd) then
    (e, Some ("Invalid round: " +:+ rnd
                +:+ ". Must be one of: preflop, flop, turn, river"))
  else
    let e3 := enterRound e rnd communityCards in
    let dealt :=
      if String.eqb rnd "flop" && (length (boardCards e3) =? 0)%nat then
        match dealFlop e3 with
        | inl e4 => inl (logEvent e4 "Flop dealt")
        | inr msg => inr msg
        end
      else if String.eqb rnd "turn" && (length (boardCards e3) =? 3)%nat then
        match dealTurn e3 with
        | inl e4 => inl (logEvent e4 "Turn card dealt")
        | inr msg => inr msg
        end
      else if String.eqb rnd "river" && (length (boardCards e3) =? 4)%nat then
        match dealRiver e3 with
        | inl e4 => inl (logEvent e4 "River card dealt")
        | inr msg => inr msg
        end
      else inl e3 in
    match dealt with
    | inl e5 => (finishRound e5 rnd, None)
    | inr msg => (e3, Some msg)
    end.

(** [[this.humanPlayer, ...this.bots.filter(b => !b.folded && b.isActive)]]:
    the human is listed whatever its flags are. *)
Definition activePlayers (e : Engine) : list Player :=
  humanPlayer e :: List.filter (fun b => negb (folded b) && isActive b) (bots e).

(** [isBettingRoundComplete()]; its filter reads [b.isActive && !b.folded]. *)
Definition isBettingRoundComplete (e : Engine) : bool :=
  let players :=
    humanPlayer e :: List.filter (fun b => isActive b && negb (folded b)) (bots e) in
  if (length players <=? 1)%nat then true
  else
    let uniqueBetAmounts := JS.setOf (map betInCurrentRound players) in
    (length uniqueBetAmounts =? 1)%nat.

(** [isRoundComplete()] *)
Definition isRoundComplete (e : Engine) : bool :=
  let players := activePlayers e in
  if (length players <=? 1)%nat then true
  else
    let betAmounts := JS.setOf (map betInCurrentRound players) in
    if (length betAmounts =? 1)%nat then true
    else
      let playersWithHighestBet :=
        match JS.mathMax (map betInCurrentRound players) with
        | Some h => List.filter (fun p => betInCurrentRound p =? h) players
        | None => []
        end in
      let allInPlayers := List.filter (fun p => stack p =? 0) players in
      (length playersWithHighestBet + length allInPlayers =? length players)%nat.

(** [isHandComplete()] *)
Definition isHandComplete (e : Engine) : bool :=
  (length (activePlayers e) <=? 1)%nat.

End PokerGameEngine.

(** ** poker-ai-decision.js

    A field that is missing from a game-state object reads as a falsy value
    in every test below ([x || default], [x === 'EASY']), so a missing string
    is modelled as the empty string and a missing number as [0]. *)

Module PokerAIDecision.

(** [a < b] and [a > b] on numbers. *)
Definition Qltb (a b : Q) : bool := negb (Qle_bool b a).

(** An entry of [botActions].  [actionBias] is [None] when the value read is
    [undefined]. *)
Record BotAction := mkBotAction {
  botIndex : Z;
  actionBias : option string;
  confidence : Q
}.

Record Decision := mkDecision {
  globalPlan : string;
  aggression : Q;
  bluffFrequency : Q;
  coordination : Q;
  botActions : list BotAction
}.

(** The fields of [gameData] / [gameState] read by the functions below.  An
    array-valued field is [None] when the value is not an array. *)
Record GameData := mkGameData {
  difficulty : string;
  potSize : Q;
  playerAction : string;
  playerBetSize : Q;
  botStacks : option (list Z);
  legalActions : option (list string)
}.

Record ConcreteAction := mkConcreteAction {
  concreteBotIndex : Z;
  action : string;
  concreteConfidence : Q
}.

(** The minimal structure returned when there is no array of bot stacks. *)
Definition minimalDecision : Decision :=
  mkDecision "pot_control" (5 # 10) (3 # 10) (6 # 10) [].

Definition randomActions : list string := ["fold"; "call"; "raise"].

(** [randomActions[Math.floor(r * randomActions.length)]] for a draw [r] of
    [Math.random()]. *)
Definition pickRandomAction (r : Q) : option string :=
  let idx := Qfloor (r * 3) in
  if idx <? 0 then None else nth_error randomActions (Z.to_nat idx).

(** The bias of one turn of the loop; [r] is the draw this turn would make. *)
Definition fallbackBias (gd : GameData) (r : Q) : option string :=
  if String.eqb (difficulty gd) "EASY" then pickRandomAction r
  else if String.eqb (difficulty gd) "HARD" then Some "call"
  else Some "call".

(** [generateFallbackDecision(gameData)], before [JSON.stringify].  The
    argument is [None] for a missing [gameData]; [random i] is the draw of
    [Math.random()] made for bot [i]. *)
Definition generateFallbackDecision (gameData : option GameData) (random : nat -> Q)
  : Decision :=
  match gameData with
  | None => minimalDecision
  | Some gd =>
      match botStacks gd with
      | None => minimalDecision
      | Some stacks =>
          let numBots := length stacks in
          mkDecision "pot_control" (5 # 10) (3 # 10) (6 # 10)
            (map (fun i => mkBotAction (Z.of_nat i) (fallbackBias gd (random i)) (6 # 10))
               (seq 0 numBots))
      end
  end.

(** [isValidBotAction(action, legalActions)] on an entry whose fields have
    the types the [typeof] tests ask for. *)
Definition isValidBotAction (a : BotAction) (legal : option (list string)) : bool :=
  if botIndex a <? 0 then false
  else if Qltb (confidence a) 0 || Qltb 1 (confidence a) then false
  else
    match actionBias a with
    | None => false
    | Some bias =>
        if negb (JS.includes ["fold"; "call"; "raise"] bias) then false
        else
          match legal with
          | None => true
          | Some la => JS.includes la bias
          end
    end.

Definition validPlans : list string :=
  ["pressure"; "trap"; "isolate"; "pot_control"; "chaos"].

Definition inUnit (q : Q) : bool := negb (Qltb q 0 || Qltb 1 q).

(** [isValidDecision(decision, gameData)] on a decision whose five fields
    are present with the expected types; [None] is the [TypeError] of
    [gameData.botStacks.length] when there is no array of stacks. *)
Definition isValidDecision (d : Decision) (gd : GameData) : option bool :=
  if negb (inUnit (aggression d)) then Some false
  else if negb (inUnit (bluffFrequency d)) then Some false
  else if negb (inUnit (coordination d)) then Some false
  else if negb (JS.includes validPlans (globalPlan d)) then Some false
  else
    match botStacks gd with
    | None => None
    | Some stacks =>
        if negb (length (botActions d) =? length stacks)%nat then Some false
        else
          Some (forallb (fun '(i, a) =>
                           isValidBotAction a (legalActions gd)
                           && (botIndex a =? Z.of_nat i))
                  (imap pair (botActions d)))
    end.

(** [actionBias === s] *)
Definition biasIs (bias : option string) (s : string) : bool :=
  match bias with
  | Some b => String.eqb b s
  | None => false
  end.

(** [determineConcreteAction(botAction, gameState, aiDecision)]; [r] is the
    draw [Math.random()] returns if the HARD branch asks for one. *)
Definition determineConcreteAction (botAction : BotAction) (gameState : GameData)
  (r : Q) : ConcreteAction :=
  let bias := actionBias botAction in
  let conf := confidence botAction in
  let answer := mkConcreteAction (botIndex botAction) in
  match legalActions gameState with
  | None | Some [] => answer "call" (5 # 10)
  | Some ((first :: _) as legal) =>
      let passed :=
        match bias with
        | Some b => if JS.includes legal b then Some (answer b conf) else None
        | None => None
        end in
      match passed with
      | Some a => a
      | None =>
          let diff := if String.eqb (difficulty gameState) EmptyString then "NORMAL"
                      else difficulty gameState in
          let pot := if Qeq_bool (potSize gameState) 0 then 100 # 1
                     else potSize gameState in
          let bet := playerBetSize gameState in
          let firstLegal := answer first (5 # 10) in
          if biasIs bias "raise" && JS.includes legal "call" then
            if String.eqb diff "HARD" && Qltb (3 # 10) r
            then answer "call" (Qmin conf (9 # 10))
            else answer "call" (Qmin conf (8 # 10))
          else if biasIs bias "raise" && JS.includes legal "fold" then
            if String.eqb diff "HARD" && Qltb bet (pot * (5 # 10))
               && JS.includes legal "call"
            then answer "call" (Qmin conf (7 # 10))
            else answer "fold" (Qmax conf (3 # 10))
          else if biasIs bias "call" && JS.includes legal "fold" then
            if String.eqb diff "HARD" && Qltb bet (pot * (3 # 10))
               && JS.includes legal "call"
            then answer "call" (Qmin conf (8 # 10))
            else answer "fold" (Qmax conf (4 # 10))
          else if biasIs bias "fold" && JS.includes legal "call" then
            if String.eqb diff "HARD" && Qltb bet (pot * (4 # 10))
            then answer "call" (Qmax conf (6 # 10))
            else if String.eqb diff "EASY"
            then answer "fold" conf
            else firstLegal
          else firstLegal
      end
  end.

End PokerAIDecision.

(** ** Notions used to state the properties, and the hands they are tried on *)

Module Table.
Import Cards PokerGameEngine.

(** One call [applyAction(player, action, amount)]. *)
Record Call := mkCall {
  who : PlayerRef;
  what : string;
  howMuch : Z
}.

Definition step (e : Engine) (c : Call) : Engine :=
  fst (applyAction e (who c) (what c) (howMuch c)).

(** A sequence of [applyAction] calls, each on the engine the previous left. *)
Definition applyAll (e : Engine) (calls : list Call) : Engine :=
  fold_left step calls e.

Definition knownAction (a : string) : Prop :=
  a = "fold" \/ a = "call" \/ a = "raise".

Definition sumOf (f : Player -> Z) (ps : list Player) : Z :=
  fold_right Z.add 0 (map f ps).

Definition sumStacks (ps : list Player) : Z := sumOf stack ps.

Definition totalStack (e : Engine) : Z :=
  stack (humanPlayer e) + sumStacks (bots e).

Definition stacksNonneg (e : Engine) : Prop :=
  forall r p, getPlayer e r = Some p -> 0 <= stack p.

(** A hand as [resetRoundState] leaves it, on stacks that are not negative. *)
Definition freshHand (e : Engine) : Prop :=
  potSize e = 0
  /\ (forall r p, getPlayer e r = Some p -> betInCurrentRound p = 0)
  /\ stacksNonneg e.

(** All actors of the table: the human, then the bots by index. *)
Definition actors (e : Engine) : list PlayerRef :=
  Human :: map Bot (seq 0 (length (bots e))).

Definition stackOf (e : Engine) (r : PlayerRef) : Z :=
  match getPlayer e r with
  | Some p => stack p
  | None => 0
  end.

(** What actor [r] has put in since [e0]: the decrease of its stack. *)
Definition contribution (e0 e : Engine) (r : PlayerRef) : Z :=
  stackOf e0 r - stackOf e r.

Definition totalContributions (e0 e : Engine) : Z :=
  fold_right Z.add 0 (map (contribution e0 e) (actors e0)).

(** Actors that are active and have not folded, the human included only
    under the same test as the bots. *)
Definition inHand (p : Player) : bool := isActive p && negb (folded p).

Definition activeUnfolded (e : Engine) : list Player :=
  List.filter inHand (humanPlayer e :: bots e).

(** A deck to deal from; its order does not matter below. *)
Definition someDeck : list Card :=
  [mkCard hearts R2; mkCard clubs R9; mkCard spades RK; mkCard diamonds R5;
   mkCard hearts RA; mkCard clubs R3; mkCard spades R7; mkCard diamonds RJ;
   mkCard hearts R8; mkCard clubs RQ].

Definition seat (chips : Z) : Player := mkPlayer chips false 0 true.

(** Heads-up table, 100 chips each, just reset. *)
Definition headsUp : Engine :=
  resetRoundState (mkEngine [seat 100] (seat 100) "preflop" 0 [] [] []) someDeck.

(** The human holds 10 chips against a bot holding 50. *)
Definition shortHuman : Engine :=
  resetRoundState (mkEngine [seat 50] (seat 10) "preflop" 0 [] [] []) someDeck.

(** Preflop: the human bets 50 and the bot is still to answer. *)
Definition facingBet : Engine :=
  applyAll headsUp [mkCall Human "raise" 50].

(** The bot bets 5, then the human moves all-in for its 10 chips. *)
Definition allInLead : Engine :=
  applyAll shortHuman [mkCall (Bot 0) "raise" 5; mkCall Human "raise" 10].

(** The human holds 10 chips against a bot holding 5; the bot moves all-in
    for 5, then the human for 10. *)
Definition bothAllIn : Engine :=
  applyAll
    (resetRoundState (mkEngine [seat 5] (seat 10) "preflop" 0 [] [] []) someDeck)
    [mkCall (Bot 0) "raise" 5; mkCall Human "raise" 10].

(** Three-handed, 100 chips each: the first bot bets 10, the second calls,
    the human folds. *)
Definition humanOut : Engine :=
  applyAll
    (resetRoundState
       (mkEngine [seat 100; seat 100] (seat 100) "preflop" 0 [] [] []) someDeck)
    [mkCall (Bot 0) "raise" 10; mkCall (Bot 1) "call" 0; mkCall Human "fold" 0].

(** The human folds at once; the single bot is left in the hand. *)
Definition humanFolded : Engine :=
  applyAll headsUp [mkCall Human "fold" 0].

(** Two streets of betting: 10 each preflop, then 5 each on the flop. *)
Definition afterPreflop : Engine :=
  applyAll headsUp [mkCall Human "raise" 10; mkCall (Bot 0) "call" 0].

Definition onFlop : Engine := fst (startRound afterPreflop "flop" []).

Definition afterFlop : Engine :=
  applyAll onFlop [mkCall Human "raise" 5; mkCall (Bot 0) "call" 0].

Definition onTurn : Engine := fst (startRound afterFlop "turn" (boardCards afterFlop)).

(** The street bets as [updatePotSize] adds them up. *)
Definition sumBets (e : Engine) : Z :=
  fold_left (fun t b => t + betInCurrentRound b) (bots e) 0
  + betInCurrentRound (humanPlayer e).

(** What every call preserves from [e] to [e']: chips are conserved between
    the stacks and the pot, the pot moves with the street bets, no stack is
    negative, no seat appears or vanishes. *)
Definition conserved (e e' : Engine) : Prop :=
  potSize e' + totalStack e' = potSize e + totalStack e
  /\ potSize e' - sumBets e' = potSize e - sumBets e
  /\ stacksNonneg e'
  /\ length (bots e') = length (bots e).

End Table.

(** ** poker-game-engine.js: setting a game up *)

Module GameSetup.
Import Cards PokerGameEngine.

(** [ensureValidStack(stack)].  The argument is [None] when it is not of
    type number or is [NaN]. *)
Definition ensureValidStack (stack : option Q) : Z :=
  match stack with
  | None => 100
  | Some q =>
      if PokerAIDecision.Qltb q (100 # 1) then 100
      else if PokerAIDecision.Qltb (1000000 # 1) q then 1000000
      else Qfloor q
  end.

(** The [startingStack] field of a player handed to [initializeGame]. *)
Inductive StackInput :=
| NoStack               (* missing, [null] or [NaN]: falsy *)
| BadStack              (* a truthy value that is not a number *)
| NumStack (q : Q).

(** [ensureValidStack(x.startingStack || 2000)] *)
Definition startingStackOf (x : StackInput) : Z :=
  match x with
  | NoStack => ensureValidStack (Some (2000 # 1))
  | BadStack => ensureValidStack None
  | NumStack q =>
      if Qeq_bool q 0 then ensureValidStack (Some (2000 # 1))
      else ensureValidStack (Some q)
  end.

(** [initializeGame(botPlayers, humanPlayer)], on the [startingStack] of
    each player; [botPlayers] is [None] when it is not an array and
    [human] is [None] when it is not an object.  The four per-hand fields
    are written after the spread of the player handed in, so nothing else
    of it reaches them.  [inr msg] is the error thrown, before any write. *)
Definition initializeGame (e : Engine) (botPlayers : option (list StackInput))
  (human : option StackInput) (shuffled : list Card) : Engine + string :=
  match botPlayers with
  | None | Some [] => inr "At least one bot player is required"
  | Some bs =>
      match human with
      | None => inr "Valid human player object is required"
      | Some h =>
          let newBots := map (fun b => mkPlayer (startingStackOf b) false 0 true) bs in
          let newHuman := mkPlayer (startingStackOf h) false 0 true in
          let e1 := mkEngine newBots newHuman (currentRound e) (potSize e)
                      (boardCards e) (deck e) [] in
          inl (logEvent (resetRoundState e1 shuffled) "Game initialized with players")
      end
  end.

#[global] Instance Rank_eq_dec : EqDecision Rank.
Proof. solve_decision. Defined.

#[global] Instance Card_eq_dec : EqDecision Card.
Proof. solve_decision. Defined.

Definition suits : list Suit := [hearts; diamonds; clubs; spades].
Definition ranks : list Rank := [R2; R3; R4; R5; R6; R7; R8; R9; RT; RJ; RQ; RK; RA].

(** The two nested [for] loops of [createShuffledDeck]. *)
Definition orderedDeck : list Card :=
  flat_map (fun s => map (fun r => mkCard s r) ranks) suits.

(** [[deck[i], deck[j]] = [deck[j], deck[i]]] for positions inside the
    array; [None] stands for the positions the loop never produces. *)
Definition swapCards (deck : list Card) (i : nat) (j : Z) : option (list Card) :=
  if j <? 0 then None
  else
    match deck !! i, deck !! Z.to_nat j with
    | Some a, Some b => Some (<[i := b]> (<[Z.to_nat j := a]> deck))
    | _, _ => None
    end.

(** The Fisher-Yates loop from position [i] down to 1; [random k] is the
    [k]-th draw of [Math.random()] and [k] counts the draws made so far. *)
Fixpoint shuffleFrom (deck : list Card) (i : nat) (random : nat -> Q) (k : nat)
  : option (list Card) :=
  match i with
  | O => Some deck
  | S i' =>
      let j := Qfloor (random k * inject_Z (Z.of_nat i + 1)) in
      match swapCards deck i j with
      | Some deck' => shuffleFrom deck' i' random (S k)
      | None => None
      end
  end.

(** [createShuffledDeck()], its log line apart (see [resetRoundState]). *)
Definition createShuffledDeck (random : nat -> Q) : option (list Card) :=
  shuffleFrom orderedDeck (length orderedDeck - 1) random 0.

End GameSetup.

(** ** poker-game-engine.js: validation, the bots' turn, board texture *)

Module GameFlow.
Import Cards PokerGameEngine.

(** [getLegalActions()] *)
Definition getLegalActions : list string := ["fold"; "call"; "raise"].

(** [calculateMinRaise()]; the highest bet it first looks for is not used
    in the value returned. *)
Definition calculateMinRaise (e : Engine) : Z :=
  let callAmount := calculateCallAmount e (humanPlayer e) in
  if 0 <? callAmount then callAmount + callAmount else 10.

(** The record [{ valid, message }] returned by [validateAction]. *)
Record Validation := mkValidation {
  valid : bool;
  message : string
}.

(** [validateAction(player, action, amount)] *)
Definition validateAction (e : Engine) (player : Player) (act : string) (amt : Z)
  : Validation :=
  if negb (isActive player) || folded player then
    mkValidation false "Player is not active or has folded"
  else if negb (JS.includes getLegalActions act) then
    mkValidation false
      ("Invalid action: " +:+ act +:+ ". Legal actions: fold, call, raise")
  else if String.eqb act "raise" && (amt <=? 0) then
    mkValidation false "Raise amount must be a positive number"
  else if String.eqb act "raise" && (stack player <? amt) then
    mkValidation false
      ("Player does not have enough chips to raise " +:+ pretty amt
         +:+ ". Current stack: " +:+ pretty (stack player))
  else if String.eqb act "raise" && (amt <? calculateMinRaise e) then
    mkValidation false
      ("Raise amount must be at least " +:+ pretty (calculateMinRaise e))
  else if String.eqb act "call"
          && (stack player <? calculateCallAmount e player) then
    mkValidation true "Player can go all-in"
  else mkValidation true "Action is valid".

(** [getFallbackAction(bot)].  The class declares a method of this name
    twice; the later declaration, this one, is the one in force. *)
Definition getFallbackAction (e : Engine) (bot : Player) : string :=
  if calculateCallAmount e bot <=? stack bot then "call" else "fold".

(** An entry of the array returned by [getBotStrategicResponses]. *)
Record BotResult := mkBotResult {
  resultBotIndex : Z;
  resultAction : string;
  result : ActionResult;
  resultConfidence : Q
}.

(** [this.bots[index]] *)
Definition botAt (e : Engine) (index : Z) : option (nat * Player) :=
  if index <? 0 then None
  else match bots e !! Z.to_nat index with
       | Some b => Some (Z.to_nat index, b)
       | None => None
       end.

Section Responses.

(** The decimal text JavaScript gives a number inside a template string. *)
Variable numberToString : Q -> string.

(** One turn of the loop over [aiActions]. *)
Definition respond (st : Engine * list BotResult)
  (aiAction : PokerAIDecision.ConcreteAction) : Engine * list BotResult :=
  let '(e, results) := st in
  let index := PokerAIDecision.concreteBotIndex aiAction in
  let act := PokerAIDecision.action aiAction in
  let conf := PokerAIDecision.concreteConfidence aiAction in
  match botAt e index with
  | None => st
  | Some (i, bot) =>
      if isActive bot && negb (folded bot) then
        if valid (validateAction e bot act 0) then
          let '(e1, res) := applyAction e (Bot i) act 0 in
          (logEvent e1
             ("Bot " +:+ pretty index +:+ " " +:+ act +:+ " with confidence "
                +:+ numberToString conf),
           results ++ [mkBotResult index act res conf])
        else
          let fallbackAction := getFallbackAction e bot in
          let '(e1, res) := applyAction e (Bot i) fallbackAction 0 in
          (logEvent e1
             ("Bot " +:+ pretty index +:+ " used fallback action: "
                +:+ fallbackAction +:+ " after AI suggested " +:+ act),
           results ++ [mkBotResult index fallbackAction res (5 # 10)])
      else st
  end.

(** [getBotStrategicResponses(playerAction, playerBetSize)].  The answer of
    [this.aiDecision.getAIActions(gameState)] is passed in as [aiActions];
    the two arguments of the method only feed that request. *)
Definition getBotStrategicResponses (e : Engine)
  (aiActions : list PokerAIDecision.ConcreteAction) : Engine * list BotResult :=
  let '(e1, results) := fold_left respond aiActions (e, []) in
  (logEvent e1
     (if isBettingRoundComplete e1
      then "Betting round completed after bot actions"
      else "Betting continues, human needs to act again"),
   results).

(** [processHumanAction(action, amount)]; [inr msg] is the error thrown
    when the action does not validate. *)
Definition processHumanAction (e : Engine) (act : string) (amt : Z)
  (aiActions : list PokerAIDecision.ConcreteAction)
  : Engine * (list BotResult + string) :=
  let validation := validateAction e (humanPlayer e) act amt in
  if negb (valid validation) then (e, inr (message validation))
  else
    let '(e1, _) := applyAction e Human act amt in
    let e2 := logEvent e1
                ("Human player " +:+ act +:+ " with amount " +:+ pretty amt) in
    let '(e3, botResults) := getBotStrategicResponses e2 aiActions in
    (logEvent e3 "Bots responded to human action", inl botResults).

End Responses.

(** [cardRankValue(rank)]; on the thirteen ranks of the deck it never throws. *)
Definition cardRankValue (r : Rank) : Z :=
  match r with
  | RA => 14 | RK => 13 | RQ => 12 | RJ => 11 | RT => 10
  | R9 => 9 | R8 => 8 | R7 => 7 | R6 => 6 | R5 => 5 | R4 => 4 | R3 => 3 | R2 => 2
  end.

(** [xs.sort((a, b) => a - b)]: ascending order. *)
Fixpoint insertAsc (x : Z) (xs : list Z) : list Z :=
  match xs with
  | [] => [x]
  | y :: ys => if x <? y then x :: y :: ys else y :: insertAsc x ys
  end.

Definition sortAsc (xs : list Z) : list Z := fold_right insertAsc [] xs.

(** [analyzeBoardTexture()] on [this.boardCards] *)
Definition analyzeBoardTexture (board : list Card) : string :=
  if (length board <? 3)%nat then "unknown"
  else
    let sortedRanks := sortAsc (JS.setOf (map (fun c => cardRankValue (rank c)) board)) in
    let straightDraw :=
      (2 <=? length sortedRanks)%nat
      && existsb (fun i => nth (i + 1) sortedRanks 0 - nth i sortedRanks 0 <=? 4)
           (seq 0 (length sortedRanks - 1)) in
    let suitCounts := fold_left (fun m s => PokerUtils.bumpSuit s m) (map suit board) [] in
    let flushPossible :=
      match JS.mathMax (map snd suitCounts) with
      | Some m => 2 <=? m
      | None => false
      end in
    if straightDraw || flushPossible then "wet"
    else if (3 <=? length board)%nat then "dry"
    else "unknown".

End GameFlow.

(** ** poker-utils.js: comparing hands, printing cards *)

Module UtilsText.
Import Cards PokerUtils.

(** The rank character of a card, as [createShuffledDeck] writes it. *)
Definition rankChar (r : Rank) : Ascii.ascii :=
  match r with
  | R2 => "2" | R3 => "3" | R4 => "4" | R5 => "5" | R6 => "6" | R7 => "7"
  | R8 => "8" | R9 => "9" | RT => "T" | RJ => "J" | RQ => "Q" | RK => "K"
  | RA => "A"
  end%char.

(** [suit.charAt(0)] of the four suit names. *)
Definition suitInitial (s : Suit) : Ascii.ascii :=
  match s with
  | hearts => "h" | diamonds => "d" | clubs => "c" | spades => "s"
  end%char.

(** [getRankFromValue(value)] *)
Definition getRankFromValue (v : Z) : string :=
  if v =? 14 then "A"
  else if v =? 13 then "K"
  else if v =? 12 then "Q"
  else if v =? 11 then "J"
  else if v =? 10 then "T"
  else pretty v.

(** [comparePokerHands(hand1, communityCards, hand2)] *)
Definition comparePokerHands (hand1 communityCards hand2 : list Card) : Z :=
  let eval1 := evaluatePokerHand hand1 communityCards in
  let eval2 := evaluatePokerHand hand2 communityCards in
  if value eval2 <? value eval1 then 1
  else if value eval1 <? value eval2 then -1
  else 0.

(** [`${card.rank}${card.suit.charAt(0)}`] *)
Definition cardText (c : Card) : string :=
  String (rankChar (rank c)) (String (suitInitial (suit c)) EmptyString).

(** [texts.join(', ')] *)
Fixpoint joinComma (texts : list string) : string :=
  match texts with
  | [] => EmptyString
  | [t] => t
  | t :: rest => t +:+ ", " +:+ joinComma rest
  end.

(** [cardsToString(cards)]; the argument is [None] for a missing array. *)
Definition cardsToString (cards : option (list Card)) : string :=
  match cards with
  | None | Some [] => EmptyString
  | Some cs => joinComma (map cardText cs)
  end.

End UtilsText.

(** ** poker-ai-decision.js: the last-resort actions, the mapping loop *)

Module AIFallback.
Import PokerAIDecision.

(** The action every fallback entry gets.  [legal] is [None] for a missing
    list of legal actions. *)
Definition fallbackAction (legal : option (list string)) : string :=
  match legal with
  | Some ((first :: _) as la) => if JS.includes la "call" then "call" else first
  | _ => "call"
  end.

(** [generateFallbackActions(gameState)]; the argument is [None] for a
    missing game state. *)
Definition generateFallbackActions (gameState : option GameData)
  : list ConcreteAction :=
  match gameState with
  | None => []
  | Some gs =>
      match botStacks gs with
      | None => []
      | Some stacks =>
          map (fun i => mkConcreteAction (Z.of_nat i)
                          (fallbackAction (legalActions gs)) (5 # 10))
            (seq 0 (length stacks))
      end
  end.

(** [mapIntentToActions(aiDecision, gameState)].  [random i] is the draw
    [Math.random()] returns if the entry at position [i] asks for one; every
    run of the loop is obtained for some such [random]. *)
Definition mapIntentToActions (aiDecision : Decision) (gameState : GameData)
  (random : nat -> Q) : list ConcreteAction :=
  imap (fun i botAction => determineConcreteAction botAction gameState (random i))
    (botActions aiDecision).

End AIFallback.

(** ** Counting notions used to state the properties of the evaluator and
    of the showdown *)

Module Counting.
Import Cards.

(** How many entries of [ss] are the suit [s]. *)
Definition suitCount (s : Suit) (ss : list Suit) : Z :=
  Z.of_nat (count_occ Suit_eq_dec ss s).

(** [suitCounts[s] || 0] on the list of entries of the object. *)
Fixpoint countAt (s : Suit) (m : list (Suit * Z)) : Z :=
  match m with
  | [] => 0
  | (k, n) :: rest => if decide (s = k) then n else countAt s rest
  end.

(** The suits of all the cards of a hand. *)
Definition suitsOf (holeCards communityCards : list Card) : list Suit :=
  map suit (holeCards ++ communityCards).

(** The value a seat enters the showdown with: -1 when inactive. *)
Definition seatValue (communityCards : list Card) (h : PokerUtils.HandInfo) : Z :=
  if negb (PokerUtils.active h) then -1
  else PokerUtils.value (PokerUtils.evaluatePokerHand (PokerUtils.cards h) communityCards).

End Counting.

(** ** Advisory answers the properties are tried on *)

Module Answers.

(** An advisory entry telling the bot at [index] to call. *)
Definition botCalls (index : Z) : PokerAIDecision.ConcreteAction :=
  PokerAIDecision.mkConcreteAction index "call" (6 # 10).

(** A stand-in for the text of a number, used where only the log reads it. *)
Definition showHalf (q : Q) : string := "0.5".

(** An advisory answer for two bots, and the game data it answers. *)
Definition okDecision : PokerAIDecision.Decision :=
  PokerAIDecision.mkDecision "pressure" (7 # 10) (2 # 10) (9 # 10)
    [PokerAIDecision.mkBotAction 0 (Some "raise") (8 # 10);
     PokerAIDecision.mkBotAction 1 (Some "fold") (4 # 10)].

Definition okGame : PokerAIDecision.GameData :=
  PokerAIDecision.mkGameData "HARD" (120 # 1) "raise" (40 # 1) (Some [900; 350])
    (Some ["fold"; "call"; "raise"]).

End Answers.

(** ** poker-game-engine.js on chips that are not whole numbers

    [validateAction] and [applyAction] take the amount as the caller gives
    it: nothing floors it or asks for a whole number, and the comparisons,
    [Math.min], [-=] and [+=] then work on binary64 doubles.  This module
    follows [calculateCallAmount], [calculateMinRaise], [validateAction] and
    [applyAction] again with every chip quantity a double. *)

Module DoubleEngine.

(** A JavaScript number: an IEEE 754 binary64 double (53 bits of precision,
    infinities at exponent 1024) with its single [NaN], and the operations
    of the Standard Library's specification of it, rounding to nearest,
    ties to even. *)
Definition double : Type := SpecFloat.spec_float.

Definition nan : double := SpecFloat.S754_nan.

(** [a + b] and [a - b] *)
Definition add (a b : double) : double := SpecFloat.SFadd 53 1024 a b.
Definition sub (a b : double) : double := SpecFloat.SFsub 53 1024 a b.

(** [a < b], [a <= b] and [a === b]; each is false when an argument is [NaN]. *)
Definition ltb (a b : double) : bool := SpecFloat.SFltb a b.
Definition leb (a b : double) : bool := SpecFloat.SFleb a b.
Definition eqb (a b : double) : bool := SpecFloat.SFeqb a b.

(** The double of a whole number, and of a quotient of two. *)
Definition ofZ (z : Z) : double := SpecFloat.binary_normalize 53 1024 z 0 false.

Definition ofRatio (n d : Z) : double := SpecFloat.SFdiv 53 1024 (ofZ n) (ofZ d).

Definition isNaN (x : double) : bool :=
  match x with
  | SpecFloat.S754_nan => true
  | _ => false
  end.

Definition isNegZero (x : double) : bool :=
  match x with
  | SpecFloat.S754_zero true => true
  | _ => false
  end.

(** [Math.min(a, b)]: [NaN] when either argument is, and [-0] below [+0]. *)
Definition mathMin (a b : double) : double :=
  if isNaN a || isNaN b then nan
  else if ltb a b then a
  else if ltb b a then b
  else if isNegZero a then a else b.

(** [Math.max(a, b)]: [NaN] when either argument is, and [+0] above [-0]. *)
Definition mathMax (a b : double) : double :=
  if isNaN a || isNaN b then nan
  else if ltb a b then b
  else if ltb b a then a
  else if isNegZero a then b else a.

Record Player := mkPlayer {
  stack : double;
  folded : bool;
  betInCurrentRound : double;
  isActive : bool
}.

Record LogEntry := mkLog {
  event : string;
  round : string;
  logPotSize : double
}.

(** The fields of the engine that the four methods read or write. *)
Record Engine := mkEngine {
  bots : list Player;
  humanPlayer : Player;
  currentRound : string;
  potSize : double;
  gameLog : list LogEntry
}.

Definition getPlayer (e : Engine) (r : PokerGameEngine.PlayerRef) : option Player :=
  match r with
  | PokerGameEngine.Human => Some (humanPlayer e)
  | PokerGameEngine.Bot i => bots e !! i
  end.

Definition setPlayer (e : Engine) (r : PokerGameEngine.PlayerRef) (p : Player) : Engine :=
  match r with
  | PokerGameEngine.Human =>
      mkEngine (bots e) p (currentRound e) (potSize e) (gameLog e)
  | PokerGameEngine.Bot i =>
      mkEngine (<[i := p]> (bots e)) (humanPlayer e) (currentRound e)
        (potSize e) (gameLog e)
  end.

Definition setPot (e : Engine) (pot : double) : Engine :=
  mkEngine (bots e) (humanPlayer e) (currentRound e) pot (gameLog e).

(** [logEvent(event)] *)
Definition logEvent (e : Engine) (ev : string) : Engine :=
  mkEngine (bots e) (humanPlayer e) (currentRound e) (potSize e)
    (gameLog e ++ [mkLog ev (currentRound e) (potSize e)]).

(** [calculateCallAmount(player)] *)
Definition highestBet (e : Engine) : double :=
  let h := fold_left
             (fun h b => if negb (folded b) && ltb h (betInCurrentRound b)
                         then betInCurrentRound b else h)
             (bots e) (ofZ 0) in
  if negb (folded (humanPlayer e)) && ltb h (betInCurrentRound (humanPlayer e))
  then betInCurrentRound (humanPlayer e) else h.

Definition calculateCallAmount (e : Engine) (p : Player) : double :=
  mathMax (ofZ 0) (sub (highestBet e) (betInCurrentRound p)).

Record ActionResult := mkResult {
  success : bool;
  action : string;
  amount : option double;
  remainingStack : option double;
  error : option string
}.

(** The mutation of [case 'fold']. *)
Definition foldPlayer (p : Player) : Player :=
  mkPlayer (stack p) true (betInCurrentRound p) false.

(** The mutation shared by [case 'call'] and [case 'raise'], under the test
    [chips > 0], which [NaN] fails. *)
Definition payPlayer (p : Player) (chips : double) : Player :=
  if ltb (ofZ 0) chips
  then mkPlayer (sub (stack p) chips) (folded p)
         (add (betInCurrentRound p) chips) (isActive p)
  else p.

Definition moveChips (e : Engine) (r : PokerGameEngine.PlayerRef) (p : Player)
  (chips : double) : Engine :=
  if ltb (ofZ 0) chips
  then setPot (setPlayer e r (payPlayer p chips)) (add (potSize e) chips)
  else e.

(** The [catch] branch of [applyAction]. *)
Definition applyFailed (e : Engine) (act msg : string) : Engine * ActionResult :=
  (logEvent e ("Error applying action " +:+ act +:+ ": " +:+ msg),
   mkResult false act None None (Some msg)).

(** The [return] of the [try] block, evaluated on the player as mutated. *)
Definition applySucceeded (e : Engine) (p : Player) (act : string) (amt : double)
  : Engine * ActionResult :=
  (e, mkResult true act
        (Some (if String.eqb act "call"
               then mathMin (calculateCallAmount e p) (stack p)
               else if String.eqb act "raise"
               then mathMin amt (stack p)
               else ofZ 0))
        (Some (stack p)) None).

(** [applyAction(player, action, amount)] *)
Definition applyAction (e : Engine) (r : PokerGameEngine.PlayerRef) (act : string)
  (amt : double) : Engine * ActionResult :=
  if String.eqb act "fold" then
    match getPlayer e r with
    | None => applyFailed e act PokerGameEngine.typeErrorMessage
    | Some p => applySucceeded (setPlayer e r (foldPlayer p)) (foldPlayer p) act amt
    end
  else if String.eqb act "call" then
    match getPlayer e r with
    | None => applyFailed e act PokerGameEngine.typeErrorMessage
    | Some p =>
        let callAmount := mathMin (calculateCallAmount e p) (stack p) in
        applySucceeded (moveChips e r p callAmount) (payPlayer p callAmount) act amt
    end
  else if String.eqb act "raise" then
    match getPlayer e r with
    | None => applyFailed e act PokerGameEngine.typeErrorMessage
    | Some p =>
        let actualRaise := mathMin amt (stack p) in
        applySucceeded (moveChips e r p actualRaise) (payPlayer p actualRaise) act amt
    end
  else applyFailed e act ("Unknown action: " +:+ act).

(** [calculateMinRaise()] *)
Definition calculateMinRaise (e : Engine) : double :=
  let callAmount := calculateCallAmount e (humanPlayer e) in
  if ltb (ofZ 0) callAmount then add callAmount callAmount else ofZ 10.

Section Messages.

(** The decimal text JavaScript gives a number inside a template string. *)
Variable numberToString : double -> string.

(** [validateAction(player, action, amount)] on an [amount] of type number:
    [typeof amount !== 'number'] is false, [NaN] included. *)
Definition validateAction (e : Engine) (player : Player) (act : string) (amt : double)
  : GameFlow.Validation :=
  if negb (isActive player) || folded player then
    GameFlow.mkValidation false "Player is not active or has folded"
  else if negb (JS.includes GameFlow.getLegalActions act) then
    GameFlow.mkValidation false
      ("Invalid action: " +:+ act +:+ ". Legal actions: fold, call, raise")
  else if String.eqb act "raise" && leb amt (ofZ 0) then
    GameFlow.mkValidation false "Raise amount must be a positive number"
  else if String.eqb act "raise" && ltb (stack player) amt then
    GameFlow.mkValidation false
      ("Player does not have enough chips to raise " +:+ numberToString amt
         +:+ ". Current stack: " +:+ numberToString (stack player))
  else if String.eqb act "raise" && ltb amt (calculateMinRaise e) then
    GameFlow.mkValidation false
      ("Raise amount must be at least " +:+ numberToString (calculateMinRaise e))
  else if String.eqb act "call"
          && ltb (stack player) (calculateCallAmount e player) then
    GameFlow.mkValidation true "Player can go all-in"
  else GameFlow.mkValidation true "Action is valid".

End Messages.

(** A stand-in for the text of a number, for the calls in which no message
    quoting a number is produced. *)
Definition plainText (x : double) : string := "NaN".

(** The rational number a finite double stands for, in lowest terms; [None]
    for [NaN] and the two infinities. *)
Definition exact (x : double) : option Q :=
  match x with
  | SpecFloat.S754_zero _ => Some 0%Q
  | SpecFloat.S754_finite sign m e =>
      let v := match e with
               | Z0 => Zpos m # 1
               | Zpos k => (Zpos m * 2 ^ Zpos k) # 1
               | Zneg k => Zpos m # (2 ^ k)
               end in
      Some (Qred (if sign then Qopp v else v))
  | _ => None
  end.

(** What an actor has put in since [e0]: the decrease of its stack, as an
    exact rational. *)
Definition decrease (e0 e : Engine) (r : PokerGameEngine.PlayerRef) : option Q :=
  match getPlayer e0 r, getPlayer e r with
  | Some p0, Some p =>
      match exact (stack p0), exact (stack p) with
      | Some s0, Some s => Some (Qred (s0 - s))
      | _, _ => None
      end
  | _, _ => None
  end.

(** The sum of the decreases over the human and every bot. *)
Definition totalDecrease (e0 e : Engine) : option Q :=
  fold_right
    (fun r total =>
       match decrease e0 e r, total with
       | Some d, Some t => Some (Qred (d + t))
       | _, _ => None
       end)
    (Some 0%Q)
    (PokerGameEngine.Human :: map PokerGameEngine.Bot (seq 0 (length (bots e0)))).

Definition seat (chips : double) : Player := mkPlayer chips false (ofZ 0) true.

(** Heads-up table on a fresh hand: 100 chips each, no street bet, pot 0. *)
Definition headsUp : Engine :=
  mkEngine [seat (ofZ 100)] (seat (ofZ 100)) "preflop" (ofZ 0) [].

(** The double JavaScript reads [10.1] as: the double nearest to 101/10,
    which is 5685794529555251 / 2^49. *)
Definition tenPointOne : double := ofRatio 101 10.

(** The human raises 10.1. *)
Definition fractionalRaise : Engine * ActionResult :=
  applyAction headsUp PokerGameEngine.Human "raise" tenPointOne.

(** The same hand on whole chips: the human raises 10 and the bot calls. *)
Definition wholeRaise : Engine :=
  fst (applyAction (fst (applyAction headsUp PokerGameEngine.Human "raise" (ofZ 10)))
         (PokerGameEngine.Bot 0) "call" (ofZ 0)).

End DoubleEngine.

(** ** Properties of the round / hand state machine *)

Module EngineProps.
Import Cards PokerGameEngine Table.

Lemma sumOf_insert (f : Player -> Z) (ps : list Player) (i : nat) (p q : Player) :
  ps !! i = Some p ->
  sumOf f (<[i := q]> ps) = sumOf f ps - f p + f q.
Proof.
  revert i. induction ps as [|a ps IH]; intros [|i] H; simpl in *; try discriminate.
  - injection H as ->. unfold sumOf. simpl. lia.
  - specialize (IH i H). unfold sumOf in *. simpl. lia.
Qed.

Lemma fold_left_bets (ps : list Player) (t : Z) :
  fold_left (fun t b => t + betInCurrentRound b) ps t = t + sumOf betInCurrentRound ps.
Proof.
  revert t. induction ps as [|a ps IH]; intros t; simpl.
  - unfold sumOf. simpl. lia.
  - rewrite IH. unfold sumOf. simpl. lia.
Qed.

Lemma sumBets_eq (e : Engine) :
  sumBets e = sumOf betInCurrentRound (bots e) + betInCurrentRound (humanPlayer e).
Proof. unfold sumBets. rewrite fold_left_bets. lia. Qed.

Lemma totalStack_setPlayer (e : Engine) (r : PlayerRef) (p q : Player) :
  getPlayer e r = Some p ->
  totalStack (setPlayer e r q) = totalStack e - stack p + stack q.
Proof.
  destruct r as [|i]; simpl; unfold totalStack, sumStacks; simpl; intros H.
  - injection H as ->. lia.
  - rewrite (sumOf_insert _ _ _ _ _ H). lia.
Qed.

Lemma sumBets_setPlayer (e : Engine) (r : PlayerRef) (p q : Player) :
  getPlayer e r = Some p ->
  sumBets (setPlayer e r q) = sumBets e - betInCurrentRound p + betInCurrentRound q.
Proof.
  rewrite !sumBets_eq. destruct r as [|i]; simpl; intros H.
  - injection H as ->. lia.
  - rewrite (sumOf_insert _ _ _ _ _ H). lia.
Qed.

Lemma getPlayer_setPlayer (e : Engine) (r r' : PlayerRef) (q p' : Player) :
  getPlayer (setPlayer e r q) r' = Some p' ->
  p' = q \/ getPlayer e r' = Some p'.
Proof.
  destruct r as [|i], r' as [|j]; simpl; intros H; auto.
  - injection H as <-. auto.
  - destruct (decide (i = j)) as [->|Hne].
    + destruct (decide (j < length (bots e))%nat) as [Hlt|Hge].
      * rewrite list_lookup_insert_eq in H by exact Hlt. injection H as <-. auto.
      * rewrite list_insert_ge in H by lia. auto.
    + rewrite list_lookup_insert_ne in H by exact Hne. auto.
Qed.

Lemma stacksNonneg_setPlayer (e : Engine) (r : PlayerRef) (q : Player) :
  stacksNonneg e -> 0 <= stack q -> stacksNonneg (setPlayer e r q).
Proof.
  intros He Hq r' p' H.
  destruct (getPlayer_setPlayer _ _ _ _ _ H) as [->|H']; [exact Hq|].
  exact (He _ _ H').
Qed.

Lemma bots_length_setPlayer (e : Engine) (r : PlayerRef) (q : Player) :
  length (bots (setPlayer e r q)) = length (bots e).
Proof. destruct r; simpl; [reflexivity | apply length_insert]. Qed.

Lemma conserved_refl (e : Engine) : stacksNonneg e -> conserved e e.
Proof. intros H. repeat split; auto. Qed.

Lemma conserved_logEvent (e e' : Engine) (ev : string) :
  conserved e e' -> conserved e (logEvent e' ev).
Proof. intros H. exact H. Qed.

Lemma moveChips_conserved (e : Engine) (r : PlayerRef) (p : Player) (chips : Z) :
  stacksNonneg e -> getPlayer e r = Some p -> chips <= stack p ->
  conserved e (moveChips e r p chips).
Proof.
  intros He Hp Hle. unfold moveChips, payPlayer.
  destruct (0 <? chips) eqn:Hpos; [|apply conserved_refl; exact He].
  apply Z.ltb_lt in Hpos.
  set (q := mkPlayer (stack p - chips) (folded p)
              (betInCurrentRound p + chips) (isActive p)).
  repeat split.
  - change (potSize e + chips + totalStack (setPlayer e r q)
            = potSize e + totalStack e).
    rewrite (totalStack_setPlayer _ _ _ _ Hp). simpl. lia.
  - change (potSize e + chips - sumBets (setPlayer e r q)
            = potSize e - sumBets e).
    rewrite (sumBets_setPlayer _ _ _ _ Hp). simpl. lia.
  - intros r' p' H.
    assert (Hq : 0 <= stack q) by (simpl; lia).
    exact (stacksNonneg_setPlayer e r _ He Hq r' p' H).
  - apply bots_length_setPlayer.
Qed.

Lemma foldPlayer_conserved (e : Engine) (r : PlayerRef) (p : Player) :
  stacksNonneg e -> getPlayer e r = Some p ->
  conserved e (setPlayer e r (foldPlayer p)).
Proof.
  intros He Hp. repeat split.
  - rewrite (totalStack_setPlayer _ _ _ _ Hp).
    destruct r; simpl; lia.
  - rewrite (sumBets_setPlayer _ _ _ _ Hp).
    destruct r; simpl; lia.
  - apply stacksNonneg_setPlayer; [exact He|]. simpl. exact (He _ _ Hp).
  - apply bots_length_setPlayer.
Qed.

Lemma applyAction_conserved (e : Engine) (r : PlayerRef) (act : string) (amt : Z) :
  stacksNonneg e -> conserved e (fst (applyAction e r act amt)).
Proof.
  intros He.
  assert (Hfail : forall msg, conserved e (fst (applyFailed e act msg)))
    by (intros msg; apply conserved_logEvent, conserved_refl, He).
  unfold applyAction, applySucceeded.
  destruct (String.eqb act "fold").
  { destruct (getPlayer e r) as [p|] eqn:Hp; [|apply Hfail].
    apply foldPlayer_conserved; assumption. }
  destruct (String.eqb act "call").
  { destruct (getPlayer e r) as [p|] eqn:Hp; [|apply Hfail].
    apply moveChips_conserved; [assumption..|lia]. }
  destruct (String.eqb act "raise").
  { destruct (getPlayer e r) as [p|] eqn:Hp; [|apply Hfail].
    apply moveChips_conserved; [assumption..|lia]. }
  apply Hfail.
Qed.

Lemma applyAll_conserved (calls : list Call) (e : Engine) :
  stacksNonneg e -> conserved e (applyAll e calls).
Proof.
  revert e. induction calls as [|c calls IH]; intros e He; simpl.
  - apply conserved_refl; exact He.
  - destruct (applyAction_conserved e (who c) (what c) (howMuch c) He)
      as (Hsum & Hbets & Hnn & Hlen).
    destruct (IH (step e c) Hnn) as (Hsum' & Hbets' & Hnn' & Hlen').
    unfold step in *. repeat split; [lia | lia | exact Hnn' | lia].
Qed.

(** Summing the per-seat decreases gives the decrease of the total. *)
Lemma sum_contributions_bots (l0 l : list Player) :
  length l = length l0 ->
  fold_right Z.add 0
    (map (fun i => match l0 !! i with Some p => stack p | None => 0 end
                   - match l !! i with Some p => stack p | None => 0 end)
       (seq 0 (length l0)))
  = sumStacks l0 - sumStacks l.
Proof.
  revert l. induction l0 as [|a l0 IH]; intros [|b l] Hlen; simpl in *;
    try discriminate; [reflexivity|].
  injection Hlen as Hlen. specialize (IH l Hlen).
  rewrite <- seq_shift, map_map. simpl.
  unfold sumStacks, sumOf in *. simpl. rewrite IH. lia.
Qed.

Lemma totalContributions_eq (e0 e : Engine) :
  length (bots e) = length (bots e0) ->
  totalContributions e0 e = totalStack e0 - totalStack e.
Proof.
  intros Hlen. unfold totalContributions, actors, totalStack. simpl.
  rewrite map_map.
  unfold contribution at 2, stackOf. simpl.
  rewrite (sum_contributions_bots (bots e0) (bots e) Hlen).
  unfold contribution, stackOf. simpl. lia.
Qed.

(** On a fresh hand the street bets add up to nothing. *)
Lemma freshHand_sumBets (e : Engine) : freshHand e -> sumBets e = 0.
Proof.
  intros (_ & Hbets & _). rewrite sumBets_eq.
  rewrite (Hbets Human (humanPlayer e) eq_refl).
  assert (Hall : forall i p, bots e !! i = Some p -> betInCurrentRound p = 0)
    by (intros i p H; exact (Hbets (Bot i) p H)).
  clear Hbets. induction (bots e) as [|b bs IH]; [reflexivity|].
  unfold sumOf in *. simpl.
  rewrite (Hall 0%nat b eq_refl).
  assert (IH' := IH (fun i p H => Hall (S i) p H)). lia.
Qed.

Lemma resetRoundState_fresh (e : Engine) (shuffled : list Card) :
  stacksNonneg e -> freshHand (resetRoundState e shuffled).
Proof.
  intros He.
  assert (Hget : forall r p, getPlayer (resetRoundState e shuffled) r = Some p ->
                 exists p0, getPlayer e r = Some p0 /\ p = resetPlayer p0).
  { intros [|i] p; simpl.
    - intros H. injection H as <-. eauto.
    - rewrite list_lookup_fmap. destruct (bots e !! i) as [p0|]; simpl; [|discriminate].
      intros H. injection H as <-. eauto. }
  repeat split.
  - intros r p H. destruct (Hget r p H) as (p0 & _ & ->). reflexivity.
  - intros r p H. destruct (Hget r p H) as (p0 & H0 & ->). simpl. exact (He r p0 H0).
Qed.

(** C1, amended. On whole-number chips: starting from a freshly reset hand
    (pot 0, every street bet 0, no negative stack, every stack a whole
    number), after any sequence of [applyAction] calls with the known
    actions fold, call and raise and whole-number amounts, the pot equals
    the sum over all actors of what each has put in (the decrease of its
    stack), which is also the sum of the street bets, and no stack is
    negative. *)
Theorem applyAction_pot_invariant (e0 : Engine) (calls : list Call) :
  freshHand e0 ->
  Forall (fun c => knownAction (what c)) calls ->
  potSize (applyAll e0 calls) = totalContributions e0 (applyAll e0 calls)
  /\ potSize (applyAll e0 calls) = sumBets (applyAll e0 calls)
  /\ stacksNonneg (applyAll e0 calls).
Proof.
  intros Hfresh _.
  pose proof (freshHand_sumBets e0 Hfresh) as Hb0.
  destruct Hfresh as (Hpot & _ & Hnn).
  destruct (applyAll_conserved calls e0 Hnn) as (Hsum & Hbets & Hnn' & Hlen).
  rewrite (totalContributions_eq _ _ Hlen).
  repeat split; [lia | lia | exact Hnn'].
Qed.

Lemma applyAction_pot_invariant_witness :
  freshHand headsUp
  /\ Forall (fun c => knownAction (what c))
       [mkCall Human "raise" 10; mkCall (Bot 0) "call" 0; mkCall Human "fold" 0]
  /\ potSize (applyAll headsUp
                [mkCall Human "raise" 10; mkCall (Bot 0) "call" 0; mkCall Human "fold" 0])
     = 20.
Proof.
  assert (Hfresh : freshHand headsUp).
  { split; [reflexivity|].
    split; intros r p H; destruct r as [|[|i]]; simpl in H; try discriminate;
      injection H as <-; simpl; lia. }
  assert (Hknown : Forall (fun c => knownAction (what c))
            [mkCall Human "raise" 10; mkCall (Bot 0) "call" 0; mkCall Human "fold" 0]).
  { repeat (constructor; [unfold knownAction; simpl; auto|]). constructor. }
  split; [exact Hfresh|]. split; [exact Hknown|].
  destruct (applyAction_pot_invariant headsUp _ Hfresh Hknown) as [Hpot _].
  rewrite Hpot. vm_compute. reflexivity.
Defined.

(** The pot a valid [startRound] leaves is the sum of the street bets it
    found, whatever the pot was before. *)
Lemma startRound_pot (e : Engine) (rnd : string) (communityCards : list Card) :
  JS.includes validRounds rnd = true ->
  potSize (fst (startRound e rnd communityCards)) = sumBets e.
Proof.
  intros Hvalid. unfold startRound. rewrite Hvalid. simpl negb. cbv iota.
  set (e3 := enterRound e rnd communityCards).
  assert (H3 : potSize e3 = sumBets e) by reflexivity.
  assert (Hdeal : forall e', potSize (dealCard e') = potSize e')
    by (intros e'; unfold dealCard; destruct (deck e'); reflexivity).
  unfold dealFlop, dealTurn, dealRiver.
  repeat match goal with
         | |- context [if ?b then _ else _] => destruct b
         end; simpl; rewrite ?Hdeal; exact H3.
Qed.

Lemma startRound_stackOf
  (e : Engine) (rnd : string) (communityCards : list Card) (r : PlayerRef) :
  stackOf (fst (startRound e rnd communityCards)) r = stackOf e r.
Proof.
  assert (H3 : stackOf (enterRound e rnd communityCards) r = stackOf e r).
  { unfold stackOf. destruct r as [|i]; simpl; [reflexivity|].
    rewrite list_lookup_fmap. destruct (bots e !! i); reflexivity. }
  assert (Hdeal : forall e', stackOf (dealCard e') r = stackOf e' r)
    by (intros e'; unfold dealCard; destruct (deck e'); reflexivity).
  unfold startRound, dealFlop, dealTurn, dealRiver.
  repeat match goal with
         | |- context [if ?b then _ else _] => destruct b
         end; simpl fst; try reflexivity;
    change (stackOf (finishRound ?x rnd) r) with (stackOf x r);
    change (stackOf (logEvent ?x ?ev) r) with (stackOf x r);
    rewrite ?Hdeal;
    try change (stackOf (burnCard ?x) r) with (stackOf x r);
    exact H3.
Qed.

(** On whole-number chips, the first street transition of a hand keeps the
    pot: the street bets it adds up are then all that has been put in. *)
Lemma startRound_first_street
  (e0 : Engine) (calls : list Call) (rnd : string) (communityCards : list Card) :
  freshHand e0 -> JS.includes validRounds rnd = true ->
  let e := fst (startRound (applyAll e0 calls) rnd communityCards) in
  potSize e = totalContributions e0 e
  /\ potSize e = potSize (applyAll e0 calls).
Proof.
  intros Hfresh Hvalid.
  pose proof (freshHand_sumBets e0 Hfresh) as Hb0.
  destruct Hfresh as (Hpot & _ & Hnn).
  destruct (applyAll_conserved calls e0 Hnn) as (Hsum & Hbets & Hnn' & Hlen).
  cbv zeta. rewrite (startRound_pot _ _ _ Hvalid).
  assert (Hc : totalContributions e0 (fst (startRound (applyAll e0 calls) rnd communityCards))
               = totalContributions e0 (applyAll e0 calls)).
  { unfold totalContributions. f_equal. apply map_ext. intros r.
    unfold contribution. rewrite startRound_stackOf. reflexivity. }
  rewrite Hc, (totalContributions_eq _ _ Hlen). split; lia.
Qed.

(** C2. Evaluation of [startRound] on two streets of betting: 10 chips each
    preflop and 5 each on the flop put 30 chips in, yet the pot entering the
    turn is 10, the flop bets alone; the transition itself raised no error. *)
Theorem startRound_pot_keeps_last_street_only :
  potSize afterPreflop = 20
  /\ potSize onFlop = 20
  /\ potSize afterFlop = 30
  /\ totalContributions headsUp afterFlop = 30
  /\ snd (startRound afterFlop "turn" (boardCards afterFlop)) = None
  /\ totalContributions headsUp onTurn = 30
  /\ potSize onTurn = 10.
Proof. vm_compute. repeat split; reflexivity. Qed.

(** C3. Evaluation of [applyAction] where the reported amount is not what
    moved: a call of a 50 chip bet moves 50 chips and reports 0, a raise of
    60 out of a 100 chip stack moves 60 and reports 40. *)
Theorem applyAction_reports_amount_after_move :
  (let '(e2, res) := applyAction facingBet (Bot 0) "call" 0 in
   stackOf facingBet (Bot 0) - stackOf e2 (Bot 0) = 50
   /\ potSize e2 - potSize facingBet = 50
   /\ success res = true
   /\ amount res = Some 0)
  /\
  (let '(e2, res) := applyAction headsUp Human "raise" 60 in
   stackOf headsUp Human - stackOf e2 Human = 60
   /\ potSize e2 - potSize headsUp = 60
   /\ success res = true
   /\ amount res = Some 40).
Proof. vm_compute. repeat split; reflexivity. Qed.

Lemma getPlayer_setPlayer_same (e : Engine) (r : PlayerRef) (p q : Player) :
  getPlayer e r = Some p -> getPlayer (setPlayer e r q) r = Some q.
Proof.
  destruct r as [|i]; simpl; [reflexivity|]. intros H.
  apply list_lookup_insert_eq. apply lookup_lt_Some in H. exact H.
Qed.

(** What a raise within the stack moves and what it reports: the two agree
    only while the raise is at most half of the stack. *)
Lemma applyAction_raise_report
  (e : Engine) (r : PlayerRef) (p : Player) (amt : Z) :
  getPlayer e r = Some p -> 0 < amt <= stack p ->
  let (e', res) := applyAction e r "raise" amt in
  stackOf e r - stackOf e' r = amt
  /\ potSize e' = potSize e + amt
  /\ amount res = Some (Z.min amt (stack p - amt))
  /\ remainingStack res = Some (stack p - amt).
Proof.
  intros Hp [Hpos Hle]. unfold applyAction. simpl String.eqb. cbv iota.
  rewrite Hp. unfold applySucceeded, moveChips, payPlayer.
  rewrite Z.min_l by exact Hle.
  destruct (0 <? amt) eqn:Hlt; [|apply Z.ltb_ge in Hlt; lia].
  simpl String.eqb. cbv iota. unfold stackOf.
  change (getPlayer (setPot ?x ?y) r) with (getPlayer x r).
  rewrite (getPlayer_setPlayer_same _ _ _ _ Hp), Hp. simpl.
  repeat split; lia.
Qed.

(** [[...new Set(xs)]] has one element exactly when [xs] repeats its head. *)
Lemma setOf_keeps_seen (xs seen : list Z) (x : Z) :
  In x seen ->
  In x (fold_left (fun seen x => if existsb (Z.eqb x) seen then seen else seen ++ [x])
          xs seen).
Proof.
  revert seen. induction xs as [|y xs IH]; intros seen H; simpl; [exact H|].
  apply IH. destruct (existsb (Z.eqb y) seen); [exact H|].
  apply in_or_app. left. exact H.
Qed.

Lemma setOf_collects (xs seen : list Z) (x : Z) :
  In x xs ->
  In x (fold_left (fun seen x => if existsb (Z.eqb x) seen then seen else seen ++ [x])
          xs seen).
Proof.
  revert seen. induction xs as [|y xs IH]; intros seen H; simpl; [destruct H|].
  destruct H as [->|H]; [|apply IH; exact H].
  apply setOf_keeps_seen.
  destruct (existsb (Z.eqb x) seen) eqn:Hx.
  - apply existsb_exists in Hx. destruct Hx as (z & Hz & Heq).
    apply Z.eqb_eq in Heq. subst. exact Hz.
  - apply in_or_app. right. left. reflexivity.
Qed.

Lemma setOf_all_seen (xs seen : list Z) :
  (forall x, In x xs -> In x seen) ->
  fold_left (fun seen x => if existsb (Z.eqb x) seen then seen else seen ++ [x])
    xs seen = seen.
Proof.
  revert seen. induction xs as [|y xs IH]; intros seen H; simpl; [reflexivity|].
  assert (Hy : existsb (Z.eqb y) seen = true).
  { apply existsb_exists. exists y. split; [apply H; left; reflexivity|].
    apply Z.eqb_refl. }
  rewrite Hy. apply IH. intros x Hx. apply H. right. exact Hx.
Qed.

Lemma setOf_singleton (x : Z) (rest : list Z) :
  length (JS.setOf (x :: rest)) = 1%nat <-> (forall y, In y rest -> y = x).
Proof.
  unfold JS.setOf. simpl. split.
  - intros Hlen y Hy.
    pose proof (setOf_collects rest [x] y Hy) as H1.
    pose proof (setOf_keeps_seen rest [x] x (or_introl eq_refl)) as H2.
    destruct (fold_left _ rest [x]) as [|z [|z' l]]; simpl in Hlen; try discriminate.
    destruct H1 as [<-|[]]. destruct H2 as [<-|[]]. reflexivity.
  - intros Hall. rewrite setOf_all_seen; [reflexivity|].
    intros y Hy. left. symmetry. exact (Hall y Hy).
Qed.

(** [isBettingRoundComplete] is [true] exactly when every bot still in the
    hand has the same street bet as the human (with no such bot, it is). *)
Lemma isBettingRoundComplete_iff (e : Engine) :
  isBettingRoundComplete e = true
  <-> (forall b, In b (bots e) -> inHand b = true ->
       betInCurrentRound b = betInCurrentRound (humanPlayer e)).
Proof.
  unfold isBettingRoundComplete.
  assert (Hin : forall b, In b (List.filter (fun b => isActive b && negb (folded b)) (bots e))
                <-> In b (bots e) /\ inHand b = true) by (intros b; apply filter_In).
  destruct (List.filter (fun b => isActive b && negb (folded b)) (bots e)) as [|b0 bs].
  - simpl. split; [|reflexivity]. intros _ b Hb Hh.
    destruct (proj2 (Hin b) (conj Hb Hh)).
  - change (length (humanPlayer e :: b0 :: bs) <=? 1)%nat with false. cbv iota.
    change (map betInCurrentRound (humanPlayer e :: b0 :: bs))
      with (betInCurrentRound (humanPlayer e) :: map betInCurrentRound (b0 :: bs)).
    rewrite Nat.eqb_eq, setOf_singleton. split.
    + intros H b Hb Hh. apply H. apply in_map. apply Hin. split; assumption.
    + intros H y Hy. apply in_map_iff in Hy. destruct Hy as (b & <- & Hb).
      apply Hin in Hb. destruct Hb as [Hb Hh]. exact (H b Hb Hh).
Qed.

(** When all the players listed have the same street bet, [isRoundComplete]
    answers [true]. *)
Lemma isRoundComplete_equal_bets (e : Engine) :
  (forall p, In p (activePlayers e) ->
   betInCurrentRound p = betInCurrentRound (humanPlayer e)) ->
  isRoundComplete e = true.
Proof.
  intros Hall. unfold isRoundComplete.
  destruct (length (activePlayers e) <=? 1)%nat; [reflexivity|].
  replace (length (JS.setOf (map betInCurrentRound (activePlayers e))) =? 1)%nat
    with true; [reflexivity|].
  symmetry. apply Nat.eqb_eq. unfold activePlayers in *.
  change (map betInCurrentRound (humanPlayer e :: ?l))
    with (betInCurrentRound (humanPlayer e) :: map betInCurrentRound l).
  apply setOf_singleton. intros y Hy. apply in_map_iff in Hy.
  destruct Hy as (b & <- & Hb). apply Hall. right. exact Hb.
Qed.

(** [isHandComplete] is [true] exactly when no bot is left in the hand; the
    human is never looked at. *)
Lemma isHandComplete_iff (e : Engine) :
  isHandComplete e = true
  <-> (forall b, In b (bots e) -> inHand b = false).
Proof.
  unfold isHandComplete, activePlayers.
  assert (Hin : forall b, In b (List.filter (fun b => negb (folded b) && isActive b) (bots e))
                <-> In b (bots e) /\ inHand b = true).
  { intros b. rewrite filter_In. unfold inHand. rewrite andb_comm. reflexivity. }
  destruct (List.filter (fun b => negb (folded b) && isActive b) (bots e)) as [|b0 bs].
  - split; [|reflexivity]. intros _ b Hb.
    destruct (inHand b) eqn:Hh; [|reflexivity].
    destruct (proj2 (Hin b) (conj Hb Hh)).
  - split; [discriminate|]. intros H.
    destruct (proj1 (Hin b0) (or_introl eq_refl)) as [Hb Hh].
    rewrite (H b0 Hb) in Hh. discriminate.
Qed.

(** One direction of the hand-completion rule holds: a [true] answer means
    at most one actor is active and unfolded. *)
Lemma isHandComplete_sound (e : Engine) :
  isHandComplete e = true -> (length (activeUnfolded e) <= 1)%nat.
Proof.
  intros H. rewrite isHandComplete_iff in H. unfold activeUnfolded. simpl.
  assert (Hnil : List.filter inHand (bots e) = []).
  { induction (bots e) as [|b bs IH]; [reflexivity|]. simpl.
    rewrite (H b (or_introl eq_refl)). apply IH.
    intros b' Hb'. apply H. right. exact Hb'. }
  rewrite Hnil. destruct (inHand (humanPlayer e)); simpl; lia.
Qed.

(** C4. Evaluation of [isRoundComplete] on two states.  With the human
    all-in for 10 and the bot at 5 with 45 chips behind, the bot is neither
    at the highest bet nor out of chips, the bets differ, two actors are in,
    and the answer is still [true] ([isBettingRoundComplete] answers [false]
    there).  With the human folded and the two bots left in the hand level
    at 10, the answer is [false], from both functions. *)
Theorem isRoundComplete_counts_leader_twice :
  (activePlayers allInLead = [mkPlayer 0 false 10 true; mkPlayer 45 false 5 true]
   /\ length (activeUnfolded allInLead) = 2%nat
   /\ JS.mathMax (map betInCurrentRound (activePlayers allInLead)) = Some 10
   /\ isRoundComplete allInLead = true
   /\ isBettingRoundComplete allInLead = false)
  /\
  (activeUnfolded humanOut = [mkPlayer 90 false 10 true; mkPlayer 90 false 10 true]
   /\ isRoundComplete humanOut = false
   /\ isBettingRoundComplete humanOut = false).
Proof. vm_compute. repeat split; reflexivity. Qed.

(** The same count misses the opposite case: with both actors out of chips,
    one of them below the highest bet, the sum is 3 against 2 players and the
    answer is [false]. *)
Example isRoundComplete_misses_short_all_in :
  activePlayers bothAllIn = [mkPlayer 0 false 10 true; mkPlayer 0 false 5 true]
  /\ isRoundComplete bothAllIn = false.
Proof. vm_compute. split; reflexivity. Qed.

(** C5. Evaluation of [isHandComplete] after the human has folded against
    one bot: a single actor is active and unfolded, and the answer is
    [false]. *)
Theorem isHandComplete_counts_folded_human :
  humanPlayer humanFolded = mkPlayer 100 true 0 false
  /\ length (activeUnfolded humanFolded) = 1%nat
  /\ isHandComplete humanFolded = false.
Proof. vm_compute. repeat split; reflexivity. Qed.

(** C9. For every action string other than fold, call and raise,
    [applyAction] returns a record with [success = false] that carries the
    error message and no amount; the player, the other seats and the pot are
    as before the call (only the game log gains the error line). *)
Theorem applyAction_unknown_action
  (e : Engine) (r : PlayerRef) (act : string) (amt : Z) :
  act <> "fold" -> act <> "call" -> act <> "raise" ->
  let (e', res) := applyAction e r act amt in
  success res = false
  /\ action res = act
  /\ error res = Some ("Unknown action: " +:+ act)
  /\ amount res = None
  /\ remainingStack res = None
  /\ getPlayer e' r = getPlayer e r
  /\ humanPlayer e' = humanPlayer e
  /\ bots e' = bots e
  /\ potSize e' = potSize e
  /\ gameLog e' = gameLog e ++
       [mkLog ("Error applying action " +:+ act +:+ ": Unknown action: " +:+ act)
          (currentRound e) (potSize e)].
Proof.
  intros Hf Hc Hr. unfold applyAction.
  apply String.eqb_neq in Hf, Hc, Hr. rewrite Hf, Hc, Hr.
  unfold applyFailed. destruct r; repeat split; reflexivity.
Qed.

Lemma applyAction_unknown_action_witness :
  ("check" <> "fold" /\ "check" <> "call" /\ "check" <> "raise")
  /\ snd (applyAction facingBet (Bot 0) "check" 0)
     = mkResult false "check" None None (Some "Unknown action: check").
Proof.
  assert (H1 : "check" <> "fold") by discriminate.
  assert (H2 : "check" <> "call") by discriminate.
  assert (H3 : "check" <> "raise") by discriminate.
  split; [auto|].
  pose proof (applyAction_unknown_action facingBet (Bot 0) "check" 0 H1 H2 H3) as H.
  destruct (applyAction facingBet (Bot 0) "check" 0) as [e' res].
  destruct H as (Hs & Ha & He & Hm & Hrs & _).
  destruct res as [s a m rs er]. simpl in *. subst. reflexivity.
Defined.

End EngineProps.

(** ** Properties of the hand evaluator and of winner determination *)

Module UtilsProps.
Import Cards PokerUtils.

(** [Math.max] of a non-empty list is one of its elements. *)
Lemma mathMax_In (xs : list Z) (m : Z) : JS.mathMax xs = Some m -> In m xs.
Proof.
  destruct xs as [|x rest]; simpl; [discriminate|].
  intros H. injection H as <-.
  revert x. induction rest as [|y rest IH]; intros x; simpl; [auto|].
  destruct (IH (Z.max x y)) as [H|H]; [|right; right; exact H].
  destruct (Z.max_spec x y) as [[_ E]|[_ E]]; rewrite E in *.
  - right; left; exact H.
  - left; exact H.
Qed.

Lemma mathMax_const (c : Z) (n : nat) :
  JS.mathMax (map (fun _ : nat => c) (seq 0 (S n))) = Some c.
Proof.
  simpl. f_equal. generalize 1%nat.
  induction n as [|n IH]; intros k; simpl; [reflexivity|].
  rewrite Z.max_id. apply IH.
Qed.

Lemma evaluations_inactive (playerHands : list HandInfo) (communityCards : list Card) :
  Forall (fun h => active h = false) playerHands ->
  evaluations playerHands communityCards
  = map (fun i => (i, -1)) (seq 0 (length playerHands)).
Proof.
  intros Hall. unfold evaluations.
  transitivity (imap (fun (i : nat) (_ : HandInfo) => (i, -1)) playerHands);
    [|exact (imap_seq_0 playerHands (fun i => (i, -1)))].
  apply imap_ext. intros i h Hi.
  rewrite Forall_forall in Hall.
  rewrite (Hall h); [reflexivity|].
  apply list_elem_of_lookup. eauto.
Qed.

(** C6 as stated fails on an incomplete hand: two hole cards and an empty
    board evaluate to the value 0, which is not between 1 and 10. *)
Lemma evaluatePokerHand_incomplete_below_one :
  value (evaluatePokerHand [mkCard hearts RA; mkCard hearts RK] []) = 0
  /\ ~ (1 <= value (evaluatePokerHand [mkCard hearts RA; mkCard hearts RK] []) <= 10).
Proof. split; [reflexivity|]. vm_compute. intros [H _]. apply H. reflexivity. Qed.

(** C6, amended. For every input [evaluatePokerHand] returns a value between
    0 and 10: with fewer than 5 cards in all it is the incomplete result,
    category high_card with value 0, below every complete hand; with 5 cards
    or more the value lies between 1 and 10. *)
Theorem evaluatePokerHand_value_range (holeCards communityCards : list Card) :
  let e := evaluatePokerHand holeCards communityCards in
  0 <= value e <= 10
  /\ (if (length (holeCards ++ communityCards) <? 5)%nat
      then value e = 0 /\ category e = "high_card"
           /\ description e = "Incomplete hand" /\ details e = None
      else 1 <= value e <= 10).
Proof.
  unfold evaluatePokerHand.
  destruct (length (holeCards ++ communityCards) <? 5)%nat; simpl.
  - repeat split; lia.
  - match goal with
    | |- context [let '(a, b) := ?flags in _] => destruct flags as [sf rf]
    end.
    repeat match goal with
           | |- context [if ?b then _ else _] => destruct b
           end; simpl; lia.
Qed.

(** C10. For every non-empty list of player hands, the winner list is not
    empty; when every player is inactive they all tie at the value -1 and
    the winners are all the indices, in order. *)
Theorem determineWinners_never_empty
  (playerHands : list HandInfo) (communityCards : list Card) :
  playerHands <> [] ->
  determineWinners playerHands communityCards <> []
  /\ (Forall (fun h => active h = false) playerHands ->
      JS.mathMax (map snd (evaluations playerHands communityCards)) = Some (-1)
      /\ determineWinners playerHands communityCards
         = seq 0 (length playerHands)).
Proof.
  intros Hne. unfold determineWinners.
  destruct playerHands as [|h0 rest]; [contradiction|].
  change (length (h0 :: rest) =? 0)%nat with false. cbv iota.
  split.
  - destruct (JS.mathMax (map snd (evaluations (h0 :: rest) communityCards)))
      as [m|] eqn:Hmax.
    + apply mathMax_In, in_map_iff in Hmax. destruct Hmax as (e & He & Hin).
      intros Hnil.
      assert (Hf : In e (List.filter (fun e0 => snd e0 =? m)
                           (evaluations (h0 :: rest) communityCards))).
      { apply filter_In. split; [exact Hin|]. apply Z.eqb_eq. exact He. }
      apply (in_map fst) in Hf. rewrite Hnil in Hf. destruct Hf.
    + unfold evaluations in Hmax. simpl in Hmax. discriminate.
  - intros Hall. rewrite (evaluations_inactive _ _ Hall).
    rewrite map_map. simpl snd.
    change (length (h0 :: rest)) with (S (length rest)).
    rewrite mathMax_const. split; [reflexivity|].
    rewrite forallb_filter_id.
    + rewrite map_map. cbn [fst]. apply map_id.
    + apply forallb_forall. intros x Hx. apply in_map_iff in Hx.
      destruct Hx as (i & <- & _). reflexivity.
Qed.

Lemma determineWinners_never_empty_witness :
  [mkHandInfo false []; mkHandInfo false [mkCard hearts RA]] <> []
  /\ determineWinners [mkHandInfo false []; mkHandInfo false [mkCard hearts RA]] []
     = [0%nat; 1%nat].
Proof.
  assert (Hne : [mkHandInfo false []; mkHandInfo false [mkCard hearts RA]] <> [])
    by discriminate.
  split; [exact Hne|].
  destruct (determineWinners_never_empty _ [] Hne) as [_ Hall].
  destruct Hall as [_ Hw]; [repeat constructor|].
  exact Hw.
Defined.

End UtilsProps.

(** ** Properties of the fallback policy and of the intent mapper *)

Module AIProps.
Import PokerAIDecision.

Lemma includes_In (xs : list string) (s : string) :
  JS.includes xs s = true -> In s xs.
Proof.
  unfold JS.includes. intros H. apply existsb_exists in H.
  destruct H as (x & Hin & Heq). apply String.eqb_eq in Heq. subst. exact Hin.
Qed.

Lemma biasIs_eq (bias : option string) (s : string) :
  biasIs bias s = true -> bias = Some s.
Proof.
  destruct bias as [b|]; simpl; [|discriminate].
  intros H. apply String.eqb_eq in H. subst. reflexivity.
Qed.

(** C7 as stated fails twice: on an empty legal set the mapper answers call,
    and in EASY mode a fold bias is passed through although only call and
    raise are legal. *)
Lemma determineConcreteAction_leaves_legal_set :
  (action (determineConcreteAction (mkBotAction 0 (Some "raise") (8 # 10))
             (mkGameData "NORMAL" (100 # 1) "call" 0 (Some [500]) (Some [])) (1 # 2))
   = "call"
   /\ ~ In "call" (@nil string))
  /\ (action (determineConcreteAction (mkBotAction 0 (Some "fold") (8 # 10))
                (mkGameData "EASY" (100 # 1) "raise" (20 # 1) (Some [500])
                   (Some ["call"; "raise"])) (1 # 2))
      = "fold"
      /\ ~ In "fold" ["call"; "raise"]).
Proof.
  split; (split; [vm_compute; reflexivity|]).
  - intros [].
  - intros [H|[H|[]]]; discriminate.
Qed.

(** On a legal-action list that is not empty the mapper stays inside it,
    the fold bias under EASY difficulty with fold illegal and call legal
    left aside. *)
Lemma mapper_stays_legal
  (botAction : BotAction) (gameState : GameData) (r : Q) (legal : list string) :
  legalActions gameState = Some legal ->
  legal <> [] ->
  ~ (actionBias botAction = Some "fold" /\ difficulty gameState = "EASY"
     /\ JS.includes legal "fold" = false /\ JS.includes legal "call" = true) ->
  In (action (determineConcreteAction botAction gameState r)) legal.
Proof.
  intros Hlegal Hne Hslip. unfold determineConcreteAction. rewrite Hlegal.
  destruct legal as [|first rest]; [contradiction|].
  remember (first :: rest) as legal eqn:Hl.
  assert (Hfirst : In first legal) by (subst; left; reflexivity).
  assert (Hpassed :
    forall b, actionBias botAction = Some b -> JS.includes legal b = false ->
    ~ (biasIs (Some b) "fold" = true
       /\ String.eqb (if String.eqb (difficulty gameState) EmptyString
                      then "NORMAL" else difficulty gameState) "EASY" = true
       /\ JS.includes legal "call" = true)).
  { intros b Hb Hinc (Hfold & Heasy & Hcall). apply Hslip.
    apply biasIs_eq in Hfold. injection Hfold as ->.
    repeat split; auto.
    destruct (String.eqb (difficulty gameState) EmptyString);
      [discriminate|apply String.eqb_eq; exact Heasy]. }
  destruct (actionBias botAction) as [b|] eqn:Hb.
  - destruct (JS.includes legal b) eqn:Hinc; [apply includes_In; exact Hinc|].
    specialize (Hpassed b eq_refl Hinc). cbv zeta.
    repeat match goal with
           | |- context [if ?c then _ else _] => destruct c eqn:?
           end;
      repeat match goal with
             | H : _ && _ = true |- _ => apply andb_true_iff in H; destruct H
             end;
      simpl action; try exact Hfirst; try (apply includes_In; assumption).
    exfalso. apply Hpassed. repeat split; assumption.
  - simpl. exact Hfirst.
Qed.

(** When the legal-action list is empty or is not an array, the guard at the
    head of the mapper answers call for that bot with confidence 0.5,
    whatever the bias, the difficulty and the draw. *)
Lemma mapper_guard_calls (botAction : BotAction) (gameState : GameData) (r : Q) :
  legalActions gameState = None \/ legalActions gameState = Some [] ->
  determineConcreteAction botAction gameState r
  = mkConcreteAction (botIndex botAction) "call" (5 # 10).
Proof.
  intros [H|H]; unfold determineConcreteAction; rewrite H; reflexivity.
Qed.

(** C7, amended. For every bias, difficulty and random draw: whenever the
    legal-action list is not empty, the action [determineConcreteAction]
    returns is an element of it, the one case of a fold bias under EASY
    difficulty with fold illegal and call legal left aside; and whenever
    the legal-action list is empty or is not an array, it returns call
    (for that bot, with confidence 0.5). *)
Theorem determineConcreteAction_in_legal_set
  (botAction : BotAction) (gameState : GameData) (r : Q) :
  (forall legal : list string,
     legalActions gameState = Some legal ->
     legal <> [] ->
     ~ (actionBias botAction = Some "fold" /\ difficulty gameState = "EASY"
        /\ JS.includes legal "fold" = false /\ JS.includes legal "call" = true) ->
     In (action (determineConcreteAction botAction gameState r)) legal)
  /\ (legalActions gameState = None \/ legalActions gameState = Some [] ->
      determineConcreteAction botAction gameState r
      = mkConcreteAction (botIndex botAction) "call" (5 # 10)).
Proof.
  split.
  - intros legal. apply mapper_stays_legal.
  - apply mapper_guard_calls.
Qed.

Lemma determineConcreteAction_in_legal_set_witness :
  In (action (determineConcreteAction (mkBotAction 1 (Some "raise") (8 # 10))
                (mkGameData "HARD" (100 # 1) "raise" (20 # 1) (Some [500; 0])
                   (Some ["fold"; "call"])) (1 # 2)))
    ["fold"; "call"]
  /\ determineConcreteAction (mkBotAction 1 (Some "raise") (8 # 10))
       (mkGameData "HARD" (100 # 1) "raise" (20 # 1) (Some [500; 0]) None) (1 # 2)
     = mkConcreteAction 1 "call" (5 # 10)
  /\ determineConcreteAction (mkBotAction 0 (Some "fold") (3 # 10))
       (mkGameData "EASY" (100 # 1) "raise" (20 # 1) (Some [500]) (Some [])) (1 # 2)
     = mkConcreteAction 0 "call" (5 # 10).
Proof.
  split; [|split].
  - apply (proj1 (determineConcreteAction_in_legal_set
                    (mkBotAction 1 (Some "raise") (8 # 10))
                    (mkGameData "HARD" (100 # 1) "raise" (20 # 1) (Some [500; 0])
                       (Some ["fold"; "call"])) (1 # 2))).
    + reflexivity.
    + discriminate.
    + intros (H & _). discriminate.
  - apply (proj2 (determineConcreteAction_in_legal_set
                    (mkBotAction 1 (Some "raise") (8 # 10))
                    (mkGameData "HARD" (100 # 1) "raise" (20 # 1) (Some [500; 0])
                       None) (1 # 2))).
    left. reflexivity.
  - apply (proj2 (determineConcreteAction_in_legal_set
                    (mkBotAction 0 (Some "fold") (3 # 10))
                    (mkGameData "EASY" (100 # 1) "raise" (20 # 1) (Some [500])
                       (Some [])) (1 # 2))).
    right. reflexivity.
Defined.

(** The case set aside above: under EASY difficulty a fold bias is returned
    as it is when fold is not legal and call is. *)
Lemma determineConcreteAction_easy_fold
  (botAction : BotAction) (gameState : GameData) (r : Q) (legal : list string) :
  legalActions gameState = Some legal ->
  actionBias botAction = Some "fold" -> difficulty gameState = "EASY" ->
  JS.includes legal "fold" = false -> JS.includes legal "call" = true ->
  action (determineConcreteAction botAction gameState r) = "fold".
Proof.
  intros Hlegal Hb Hd Hfold Hcall. unfold determineConcreteAction.
  rewrite Hlegal, Hb, Hd.
  destruct legal as [|first rest]; [discriminate|].
  rewrite Hfold, Hcall. reflexivity.
Qed.

(** A draw of [Math.random()] lies in [0, 1), so the index it selects is
    0, 1 or 2 and the action picked is one of the three. *)
Lemma pickRandomAction_valid (r : Q) :
  (0 <= r)%Q -> (r < 1)%Q ->
  exists b, pickRandomAction r = Some b /\ In b randomActions.
Proof.
  intros Hlo Hhi. unfold pickRandomAction.
  assert (H0 : 0 <= Qfloor (r * 3)).
  { change 0 with (Qfloor 0). apply Qfloor_resp_le.
    apply Qmult_le_0_compat; [exact Hlo | discriminate]. }
  assert (H3 : Qfloor (r * 3) < 3).
  { rewrite Zlt_Qlt. apply Qle_lt_trans with (r * 3)%Q; [apply Qfloor_le|].
    change (inject_Z 3) with (1 * 3)%Q.
    apply Qmult_lt_compat_r; [reflexivity | exact Hhi]. }
  destruct (Qfloor (r * 3) <? 0) eqn:Hneg; [apply Z.ltb_lt in Hneg; lia|].
  assert (Hcases : Qfloor (r * 3) = 0 \/ Qfloor (r * 3) = 1 \/ Qfloor (r * 3) = 2)
    by lia.
  destruct Hcases as [-> | [-> | ->]]; simpl; eauto 6.
Qed.

(** C8 as stated fails under EASY difficulty: the bias is drawn at random
    whatever the stack, so a bot holding 0 chips can be told to raise. *)
Lemma generateFallbackDecision_raise_on_empty_stack :
  let gd := mkGameData "EASY" (100 # 1) "raise" (20 # 1) (Some [0])
              (Some ["fold"; "call"; "raise"]) in
  botStacks gd = Some [0]
  /\ botActions (generateFallbackDecision (Some gd) (fun _ => 9 # 10))
     = [mkBotAction 0 (Some "raise") (6 # 10)].
Proof. vm_compute. split; reflexivity. Qed.

(** The shape of the fallback decision, entry by entry. *)
Lemma fallbackDecision_entries
  (gd : GameData) (stacks : list Z) (random : nat -> Q) :
  botStacks gd = Some stacks ->
  (forall i, (0 <= random i)%Q /\ (random i < 1)%Q) ->
  let d := generateFallbackDecision (Some gd) random in
  length (botActions d) = length stacks
  /\ forall (i : nat) (a : BotAction),
       botActions d !! i = Some a ->
       botIndex a = Z.of_nat i
       /\ confidence a = (6 # 10)%Q
       /\ (exists b, actionBias a = Some b /\ In b ["fold"; "call"; "raise"])
       /\ (difficulty gd <> "EASY" -> actionBias a = Some "call").
Proof.
  intros Hst Hrand. unfold generateFallbackDecision. rewrite Hst. simpl.
  split; [rewrite length_map, length_seq; reflexivity|].
  intros i a Hi.
  rewrite list_lookup_fmap in Hi.
  destruct (seq 0 (length stacks) !! i) as [j|] eqn:Hj; [|discriminate].
  apply lookup_seq in Hj. destruct Hj as [-> _].
  simpl in Hi. injection Hi as <-. simpl.
  split; [reflexivity|]. split; [reflexivity|].
  unfold fallbackBias.
  destruct (String.eqb (difficulty gd) "EASY") eqn:Heasy.
  - split.
    + destruct (Hrand i) as [Hlo Hhi]. exact (pickRandomAction_valid _ Hlo Hhi).
    + intros Hne. apply String.eqb_eq in Heasy. contradiction.
  - split.
    + exists "call". split; [|simpl; auto].
      destruct (String.eqb (difficulty gd) "HARD"); reflexivity.
    + intros _. destruct (String.eqb (difficulty gd) "HARD"); reflexivity.
Qed.

(** C8, amended. For every game data holding an array of N bot stacks and
    every sequence of random draws in [0, 1), the fallback decision has
    exactly N bot actions; the action at position [i] has [botIndex = i],
    confidence 0.6 and a bias among fold, call and raise; and unless the
    difficulty is EASY every bias is call, so that no bot, whatever its
    stack, is told to raise. *)
Theorem generateFallbackDecision_shape
  (gd : GameData) (stacks : list Z) (random : nat -> Q) :
  botStacks gd = Some stacks ->
  (forall i, (0 <= random i)%Q /\ (random i < 1)%Q) ->
  let d := generateFallbackDecision (Some gd) random in
  length (botActions d) = length stacks
  /\ forall (i : nat) (a : BotAction),
       botActions d !! i = Some a ->
       botIndex a = Z.of_nat i
       /\ confidence a = (6 # 10)%Q
       /\ (exists b, actionBias a = Some b /\ In b ["fold"; "call"; "raise"])
       /\ (difficulty gd <> "EASY" -> actionBias a = Some "call").
Proof. exact (fallbackDecision_entries gd stacks random). Qed.

Lemma generateFallbackDecision_shape_witness :
  let gd := mkGameData "HARD" (100 # 1) "raise" (20 # 1) (Some [0; 750])
              (Some ["fold"; "call"; "raise"]) in
  length (botActions (generateFallbackDecision (Some gd) (fun _ => 9 # 10))) = 2%nat
  /\ forall (i : nat) (a : BotAction),
       botActions (generateFallbackDecision (Some gd) (fun _ => 9 # 10)) !! i = Some a ->
       botIndex a = Z.of_nat i /\ actionBias a = Some "call".
Proof.
  intros gd.
  assert (Hrand : forall i : nat, (0 <= 9 # 10)%Q /\ (9 # 10 < 1)%Q)
    by (intros _; split; [discriminate | reflexivity]).
  destruct (generateFallbackDecision_shape gd [0; 750] (fun _ => 9 # 10)
              eq_refl Hrand) as [Hlen Hall].
  split; [exact Hlen|].
  intros i a Hi. destruct (Hall i a Hi) as (Hidx & _ & _ & Hcall).
  split; [exact Hidx|]. apply Hcall. discriminate.
Defined.

(** With the engine's fixed legal set, the fallback decision passes the
    validation applied to advisory answers. *)
Lemma generateFallbackDecision_isValid
  (gd : GameData) (stacks : list Z) (random : nat -> Q) :
  botStacks gd = Some stacks ->
  legalActions gd = Some ["fold"; "call"; "raise"] ->
  (forall i, (0 <= random i)%Q /\ (random i < 1)%Q) ->
  isValidDecision (generateFallbackDecision (Some gd) random) gd = Some true.
Proof.
  intros Hst Hlegal Hrand.
  destruct (fallbackDecision_entries gd stacks random Hst Hrand) as [Hlen Hall].
  unfold isValidDecision. rewrite Hst, Hlen, Nat.eqb_refl.
  replace (inUnit _) with true
    by (unfold generateFallbackDecision; rewrite Hst; reflexivity).
  replace (inUnit _) with true
    by (unfold generateFallbackDecision; rewrite Hst; reflexivity).
  replace (inUnit _) with true
    by (unfold generateFallbackDecision; rewrite Hst; reflexivity).
  replace (JS.includes validPlans _) with true
    by (unfold generateFallbackDecision; rewrite Hst; reflexivity).
  simpl negb. cbv iota. f_equal.
  apply forallb_forall. intros [i a] Hin.
  apply list_elem_of_In, list_elem_of_lookup in Hin. destruct Hin as [k Hk].
  apply list_lookup_imap_Some in Hk. destruct Hk as (a' & Ha' & Heq).
  injection Heq as -> ->.
  destruct (Hall k a' Ha') as (Hidx & Hconf & (b & Hb & Hin) & _).
  rewrite Hidx, Z.eqb_refl, andb_true_r.
  unfold isValidBotAction. rewrite Hidx, Hconf, Hb, Hlegal.
  destruct (Z.of_nat k <? 0) eqn:Hneg; [apply Z.ltb_lt in Hneg; lia|].
  simpl in Hin. destruct Hin as [<-|[<-|[<-|[]]]]; reflexivity.
Qed.

End AIProps.

(** ** Properties of the game setup *)

Module SetupProps.
Import Cards PokerGameEngine GameSetup Table.

Lemma Qltb_false_le (a b : Q) : PokerAIDecision.Qltb a b = false -> (b <= a)%Q.
Proof.
  unfold PokerAIDecision.Qltb. intros H. apply negb_false_iff in H.
  apply Qle_bool_iff. exact H.
Qed.

Lemma ensureValidStack_bounds (stack : option Q) :
  100 <= ensureValidStack stack <= 1000000.
Proof.
  destruct stack as [q|]; simpl; [|lia].
  destruct (PokerAIDecision.Qltb q (100 # 1)) eqn:Hlo; [lia|].
  destruct (PokerAIDecision.Qltb (1000000 # 1) q) eqn:Hhi; [lia|].
  apply Qltb_false_le in Hlo, Hhi. split.
  - change 100 with (Qfloor (100 # 1)). apply Qfloor_resp_le. exact Hlo.
  - change 1000000 with (Qfloor (1000000 # 1)). apply Qfloor_resp_le. exact Hhi.
Qed.

Lemma ensureValidStack_integer (n : Z) :
  100 <= n <= 1000000 -> ensureValidStack (Some (inject_Z n)) = n.
Proof.
  intros [Hlo Hhi]. unfold ensureValidStack.
  assert (H1 : PokerAIDecision.Qltb (inject_Z n) (100 # 1) = false).
  { unfold PokerAIDecision.Qltb. apply negb_false_iff, Qle_bool_iff.
    change (100 # 1) with (inject_Z 100). rewrite <- Zle_Qle. exact Hlo. }
  assert (H2 : PokerAIDecision.Qltb (1000000 # 1) (inject_Z n) = false).
  { unfold PokerAIDecision.Qltb. apply negb_false_iff, Qle_bool_iff.
    change (1000000 # 1) with (inject_Z 1000000). rewrite <- Zle_Qle. exact Hhi. }
  rewrite H1, H2. apply Qfloor_Z.
Qed.

(** [ensureValidStack] always returns a whole number of chips between 100
    and 1,000,000, validating its own result again changes nothing, and an
    argument that is not a number, or is [NaN], gives 100. *)
Theorem ensureValidStack_clamps (stack : option Q) :
  100 <= ensureValidStack stack <= 1000000
  /\ ensureValidStack (Some (inject_Z (ensureValidStack stack)))
     = ensureValidStack stack
  /\ ensureValidStack None = 100.
Proof.
  split; [apply ensureValidStack_bounds|].
  split; [|reflexivity].
  apply ensureValidStack_integer, ensureValidStack_bounds.
Qed.

Lemma startingStackOf_bounds (x : StackInput) :
  100 <= startingStackOf x <= 1000000.
Proof.
  destruct x as [| |q]; unfold startingStackOf;
    try destruct (Qeq_bool q 0); apply ensureValidStack_bounds.
Qed.

(** With at least one bot and a human, [initializeGame] succeeds whatever
    the stacks handed in: it seats one player per entry, every stack ends
    between 100 and 1,000,000, nobody is folded or inactive, and the hand is
    a fresh one (pot 0, no street bet) on the deck given and an empty board,
    with a game log started anew. *)
Theorem initializeGame_fresh
  (e : Engine) (b : StackInput) (bs : list StackInput) (h : StackInput)
  (shuffled : list Card) :
  exists e',
    initializeGame e (Some (b :: bs)) (Some h) shuffled = inl e'
    /\ freshHand e'
    /\ length (bots e') = S (length bs)
    /\ (forall r p, getPlayer e' r = Some p ->
        100 <= stack p <= 1000000 /\ folded p = false /\ isActive p = true)
    /\ currentRound e' = "preflop" /\ boardCards e' = [] /\ deck e' = shuffled
    /\ length (gameLog e') = 3%nat.
Proof.
  eexists. split; [reflexivity|].
  assert (Hget : forall r p,
    getPlayer (logEvent
                 (resetRoundState
                    (mkEngine
                       (map (fun b0 => mkPlayer (startingStackOf b0) false 0 true) (b :: bs))
                       (mkPlayer (startingStackOf h) false 0 true)
                       (currentRound e) (potSize e) (boardCards e) (deck e) [])
                    shuffled) "Game initialized with players") r = Some p ->
    exists x, p = mkPlayer (startingStackOf x) false 0 true).
  { intros [|i] p; cbn [getPlayer logEvent resetRoundState humanPlayer bots].
    - intros H. injection H as <-. exists h. reflexivity.
    - rewrite !list_lookup_fmap.
      destruct ((b :: bs) !! i) as [x|]; simpl; [|discriminate].
      intros H. injection H as <-. exists x. reflexivity. }
  repeat split.
  - intros r p H. destruct (Hget r p H) as [x ->]. reflexivity.
  - intros r p H. destruct (Hget r p H) as [x ->]. simpl.
    pose proof (startingStackOf_bounds x). lia.
  - simpl. rewrite !length_map. reflexivity.
  - destruct (Hget r p H) as [x ->]. simpl.
    pose proof (startingStackOf_bounds x). lia.
  - destruct (Hget r p H) as [x ->]. simpl.
    pose proof (startingStackOf_bounds x). lia.
  - destruct (Hget r p H) as [x ->]. reflexivity.
  - destruct (Hget r p H) as [x ->]. reflexivity.
Qed.

Lemma insert_head_perm (t : list Card) (j : nat) (a b : Card) :
  t !! j = Some b -> Permutation (b :: <[j := a]> t) (a :: t).
Proof.
  revert j. induction t as [|x t IH]; intros [|j] H; simpl in *; try discriminate.
  - injection H as ->. apply perm_swap.
  - specialize (IH j H).
    apply perm_trans with (x :: b :: <[j := a]> t); [apply perm_swap|].
    apply perm_trans with (x :: a :: t); [apply perm_skip; exact IH|].
    apply perm_swap.
Qed.

Lemma swap_perm (deck : list Card) (i j : nat) (a b : Card) :
  deck !! i = Some a -> deck !! j = Some b ->
  Permutation (<[i := b]> (<[j := a]> deck)) deck.
Proof.
  revert i j. induction deck as [|x deck IH]; intros [|i] [|j] Hi Hj;
    simpl in *; try discriminate.
  - injection Hi as ->. injection Hj as ->. reflexivity.
  - injection Hi as ->. apply insert_head_perm. exact Hj.
  - injection Hj as ->. apply insert_head_perm. exact Hi.
  - apply perm_skip. apply IH; assumption.
Qed.

(** [Math.floor(r * n)] for a draw [r] in [0, 1) is one of [0 .. n-1]. *)
Lemma floor_draw_range (r : Q) (n : Z) :
  (0 <= r)%Q -> (r < 1)%Q -> 0 < n -> 0 <= Qfloor (r * inject_Z n) < n.
Proof.
  intros Hlo Hhi Hn. split.
  - change 0 with (Qfloor 0). apply Qfloor_resp_le.
    apply Qmult_le_0_compat; [exact Hlo|].
    change 0%Q with (inject_Z 0). rewrite <- Zle_Qle. lia.
  - rewrite Zlt_Qlt.
    apply Qle_lt_trans with (r * inject_Z n)%Q; [apply Qfloor_le|].
    apply Qlt_le_trans with (1 * inject_Z n)%Q.
    + apply Qmult_lt_compat_r; [|exact Hhi].
      change 0%Q with (inject_Z 0). rewrite <- Zlt_Qlt. exact Hn.
    + rewrite Qmult_1_l. apply Qle_refl.
Qed.

Lemma shuffleFrom_perm (random : nat -> Q) (i : nat) :
  (forall k, (0 <= random k)%Q /\ (random k < 1)%Q) ->
  forall (deck : list Card) (k : nat),
    (i < length deck)%nat ->
    exists d, shuffleFrom deck i random k = Some d /\ Permutation d deck.
Proof.
  intros Hrand. induction i as [|i IH]; intros deck k Hlen.
  - exists deck. split; reflexivity.
  - cbn [shuffleFrom]. destruct (Hrand k) as [Hlo Hhi].
    pose proof (floor_draw_range (random k) (Z.of_nat (S i) + 1) Hlo Hhi
                  ltac:(lia)) as [Hj0 Hj1].
    set (j := Qfloor (random k * inject_Z (Z.of_nat (S i) + 1))) in *.
    unfold swapCards.
    destruct (j <? 0) eqn:Hneg; [apply Z.ltb_lt in Hneg; lia|].
    destruct (lookup_lt_is_Some_2 deck (S i) Hlen) as [a Ha].
    destruct (lookup_lt_is_Some_2 deck (Z.to_nat j) ltac:(lia)) as [b Hb].
    rewrite Ha, Hb.
    pose proof (swap_perm deck (S i) (Z.to_nat j) a b Ha Hb) as Hperm.
    destruct (IH (<[S i := b]> (<[Z.to_nat j := a]> deck)) (S k)) as (d & Hd & Hp).
    { rewrite !length_insert. lia. }
    exists d. split; [exact Hd|]. apply perm_trans with (1 := Hp). exact Hperm.
Qed.

Lemma orderedDeck_NoDup : NoDup orderedDeck.
Proof. apply (bool_decide_unpack _). vm_compute. reflexivity. Qed.

(** Whatever [Math.random()] draws, [createShuffledDeck] returns a
    rearrangement of the ordered deck: 52 cards, each suit and rank pair
    exactly once. *)
Theorem createShuffledDeck_permutation (random : nat -> Q) :
  (forall k, (0 <= random k)%Q /\ (random k < 1)%Q) ->
  exists d,
    createShuffledDeck random = Some d
    /\ Permutation d orderedDeck
    /\ length d = 52%nat
    /\ NoDup d
    /\ (forall s r, In (mkCard s r) d).
Proof.
  intros Hrand.
  destruct (shuffleFrom_perm random (length orderedDeck - 1) Hrand orderedDeck 0%nat)
    as (d & Hd & Hp); [simpl; lia|].
  exists d. split; [exact Hd|]. split; [exact Hp|].
  split; [rewrite (Permutation_length Hp); reflexivity|].
  split.
  - apply NoDup_ListNoDup. apply (Permutation_NoDup (Permutation_sym Hp)).
    apply NoDup_ListNoDup. exact orderedDeck_NoDup.
  - intros s r. apply (Permutation_in _ (Permutation_sym Hp)).
    destruct s, r; vm_compute; tauto.
Qed.

Lemma createShuffledDeck_permutation_witness :
  (forall k : nat, (0 <= 1 # 2)%Q /\ (1 # 2 < 1)%Q)
  /\ exists d, createShuffledDeck (fun _ => 1 # 2) = Some d /\ length d = 52%nat.
Proof.
  assert (H : forall k : nat, (0 <= 1 # 2)%Q /\ (1 # 2 < 1)%Q)
    by (intros _; split; [discriminate | reflexivity]).
  split; [exact H|].
  destruct (createShuffledDeck_permutation (fun _ => 1 # 2) H) as (d & Hd & _ & Hl & _).
  exists d. split; assumption.
Defined.

End SetupProps.

(** ** Properties of validation and of the bots' turn *)

Module FlowProps.
Import Cards PokerGameEngine GameFlow Table.

(** On whole-number chips (stack, street bets and amount are integers),
    [validateAction] accepts exactly the actions of a player still in the
    hand that are a fold, a call, or a raise of a positive amount within
    the stack and not below the minimum raise. *)
Theorem validateAction_accepts (e : Engine) (p : Player) (act : string) (amt : Z) :
  valid (validateAction e p act amt) = true
  <-> (isActive p = true /\ folded p = false
       /\ (act = "fold" \/ act = "call"
           \/ (act = "raise" /\ 0 < amt <= stack p /\ calculateMinRaise e <= amt))).
Proof.
  unfold validateAction, getLegalActions, JS.includes.
  destruct (isActive p), (folded p); simpl;
    try (split; [discriminate | intros (H1 & H2 & _); discriminate]).
  destruct (String.eqb_spec act "fold") as [->|Hf].
  { simpl. split; auto. }
  destruct (String.eqb_spec act "call") as [->|Hc].
  { simpl. destruct (stack p <? calculateCallAmount e p); simpl; split; auto. }
  destruct (String.eqb_spec act "raise") as [->|Hr].
  - simpl.
    destruct (Z.leb_spec amt 0); simpl.
    { split; [discriminate|]. intros (_ & _ & [K|[K|(_ & K & _)]]);
        try discriminate; lia. }
    destruct (Z.ltb_spec (stack p) amt); simpl.
    { split; [discriminate|]. intros (_ & _ & [K|[K|(_ & K & _)]]);
        try discriminate; lia. }
    destruct (Z.ltb_spec amt (calculateMinRaise e)); simpl.
    { split; [discriminate|]. intros (_ & _ & [K|[K|(_ & _ & K)]]);
        try discriminate; lia. }
    split; [|reflexivity]. intros _. repeat split; auto.
    right. right. repeat split; auto; lia.
  - simpl. split; [discriminate|].
    intros (_ & _ & [K|[K|(K & _)]]); contradiction.
Qed.

Lemma validateAction_accepts_inv (e : Engine) (p : Player) (act : string) (amt : Z) :
  valid (validateAction e p act amt) = true ->
  isActive p = true /\ folded p = false
  /\ (act = "fold" \/ act = "call"
      \/ (act = "raise" /\ 0 < amt <= stack p /\ calculateMinRaise e <= amt)).
Proof.
  unfold validateAction, getLegalActions, JS.includes.
  destruct (isActive p), (folded p); simpl; try discriminate.
  destruct (String.eqb_spec act "fold") as [->|Hf]; [simpl; auto|].
  destruct (String.eqb_spec act "call") as [->|Hc]; [simpl; auto|].
  destruct (String.eqb_spec act "raise") as [->|Hr]; simpl; [|discriminate].
  destruct (Z.leb_spec amt 0); simpl; [discriminate|].
  destruct (Z.ltb_spec (stack p) amt); simpl; [discriminate|].
  destruct (Z.ltb_spec amt (calculateMinRaise e)); simpl; [discriminate|].
  intros _. repeat split; auto. right. right. repeat split; auto; lia.
Qed.



Lemma applyAction_bot_keeps_human (e : Engine) (i : nat) (act : string) (amt : Z) :
  humanPlayer (fst (applyAction e (Bot i) act amt)) = humanPlayer e.
Proof.
  unfold applyAction, applySucceeded, applyFailed, moveChips.
  repeat match goal with
         | |- context [if ?b then _ else _] => destruct b
         | |- context [match ?o with Some _ => _ | None => _ end] => destruct o
         end; reflexivity.
Qed.

Lemma applyAction_known_success
  (e : Engine) (r : PlayerRef) (p : Player) (act : string) (amt : Z) :
  getPlayer e r = Some p -> act = "fold" \/ act = "call" ->
  success (snd (applyAction e r act amt)) = true.
Proof.
  intros Hp [->| ->]; unfold applyAction; simpl String.eqb; cbv iota;
    rewrite Hp; reflexivity.
Qed.

Lemma botAt_lookup (e : Engine) (index : Z) (i : nat) (bot : Player) :
  botAt e index = Some (i, bot) -> getPlayer e (Bot i) = Some bot.
Proof.
  unfold botAt. destruct (index <? 0); [discriminate|].
  destruct (bots e !! Z.to_nat index) as [b|] eqn:Hb; [|discriminate].
  intros H. injection H as <- <-. exact Hb.
Qed.


Section Responses.

Variable numberToString : Q -> string.

Lemma fold_left_respond_inv (P : Engine * list BotResult -> Prop)
  (aiActions : list PokerAIDecision.ConcreteAction) :
  (forall st a, P st -> P (respond numberToString st a)) ->
  forall st, P st -> P (fold_left (respond numberToString) aiActions st).
Proof.
  intros Hstep. induction aiActions as [|a rest IH]; intros st Hst; simpl; auto.
Qed.

Lemma respond_results (st : Engine * list BotResult)
  (a : PokerAIDecision.ConcreteAction) :
  Forall (fun r => (resultAction r = "fold" \/ resultAction r = "call")
                   /\ success (result r) = true) (snd st) ->
  Forall (fun r => (resultAction r = "fold" \/ resultAction r = "call")
                   /\ success (result r) = true)
    (snd (respond numberToString st a)).
Proof.
  destruct st as [e results]. simpl. intros Hall. unfold respond.
  destruct (botAt e (PokerAIDecision.concreteBotIndex a)) as [[i bot]|] eqn:Hbot;
    [|exact Hall].
  apply botAt_lookup in Hbot.
  destruct (isActive bot && negb (folded bot)); [|exact Hall].
  destruct (valid (validateAction e bot (PokerAIDecision.action a) 0)) eqn:Hv.
  - apply validateAction_accepts_inv in Hv.
    destruct Hv as (_ & _ & Hact).
    assert (Hfc : PokerAIDecision.action a = "fold" \/ PokerAIDecision.action a = "call")
      by (destruct Hact as [H|[H|(_ & H & _)]]; auto; lia).
    pose proof (applyAction_known_success e (Bot i) bot _ 0 Hbot Hfc) as Hs.
    destruct (applyAction e (Bot i) (PokerAIDecision.action a) 0) as [e1 res].
    simpl in *. apply Forall_app. split; [exact Hall|].
    constructor; [|constructor]. split; assumption.
  - assert (Hfc : getFallbackAction e bot = "fold" \/ getFallbackAction e bot = "call")
      by (unfold getFallbackAction; destruct (_ <=? _); auto).
    pose proof (applyAction_known_success e (Bot i) bot _ 0 Hbot Hfc) as Hs.
    destruct (applyAction e (Bot i) (getFallbackAction e bot) 0) as [e1 res].
    simpl in *. apply Forall_app. split; [exact Hall|].
    constructor; [|constructor]. split; assumption.
Qed.

Lemma respond_keeps_human (q : Player) (st : Engine * list BotResult)
  (a : PokerAIDecision.ConcreteAction) :
  humanPlayer (fst st) = q -> humanPlayer (fst (respond numberToString st a)) = q.
Proof.
  destruct st as [e results]. simpl. intros Hq. unfold respond.
  destruct (botAt e (PokerAIDecision.concreteBotIndex a)) as [[i bot]|];
    [|exact Hq].
  destruct (isActive bot && negb (folded bot)); [|exact Hq].
  destruct (valid (validateAction e bot (PokerAIDecision.action a) 0)).
  - pose proof (applyAction_bot_keeps_human e i (PokerAIDecision.action a) 0) as Hk.
    destruct (applyAction e (Bot i) (PokerAIDecision.action a) 0) as [e1 res].
    simpl in *. congruence.
  - pose proof (applyAction_bot_keeps_human e i (getFallbackAction e bot) 0) as Hk.
    destruct (applyAction e (Bot i) (getFallbackAction e bot) 0) as [e1 res].
    simpl in *. congruence.
Qed.


Lemma respond_length (n : nat) (st : Engine * list BotResult)
  (a : PokerAIDecision.ConcreteAction) :
  (length (snd st) <= n)%nat ->
  (length (snd (respond numberToString st a)) <= S n)%nat.
Proof.
  destruct st as [e results]. simpl. intros Hn. unfold respond.
  destruct (botAt e (PokerAIDecision.concreteBotIndex a)) as [[i bot]|];
    [|simpl; lia].
  destruct (isActive bot && negb (folded bot)); [|simpl; lia].
  destruct (valid (validateAction e bot (PokerAIDecision.action a) 0)).
  - destruct (applyAction e (Bot i) (PokerAIDecision.action a) 0) as [e1 res].
    simpl. rewrite length_app. simpl. lia.
  - destruct (applyAction e (Bot i) (getFallbackAction e bot) 0) as [e1 res].
    simpl. rewrite length_app. simpl. lia.
Qed.

Lemma responses_length (aiActions : list PokerAIDecision.ConcreteAction) :
  forall (n : nat) (st : Engine * list BotResult),
    (length (snd st) <= n)%nat ->
    (length (snd (fold_left (respond numberToString) aiActions st))
     <= length aiActions + n)%nat.
Proof.
  induction aiActions as [|a rest IH]; intros n st Hn; simpl; [exact Hn|].
  pose proof (IH (S n) (respond numberToString st a) (respond_length n st a Hn)).
  lia.
Qed.

Lemma getBotStrategicResponses_human
  (e : Engine) (aiActions : list PokerAIDecision.ConcreteAction) :
  humanPlayer (fst (getBotStrategicResponses numberToString e aiActions))
  = humanPlayer e.
Proof.
  unfold getBotStrategicResponses.
  pose proof (fold_left_respond_inv _ aiActions
                (respond_keeps_human (humanPlayer e)) (e, []) eq_refl) as Hh.
  destruct (fold_left (respond numberToString) aiActions (e, [])) as [e1 results].
  exact Hh.
Qed.

(** In the bots' turn no bot ever raises: whatever the advisory answer
    holds, every action applied is a fold or a call and is applied with
    success, at most one per entry of the answer; the human player is not
    touched. *)
Theorem getBotStrategicResponses_fold_or_call
  (e : Engine) (aiActions : list PokerAIDecision.ConcreteAction) :
  let (e', results) := getBotStrategicResponses numberToString e aiActions in
  Forall (fun r => (resultAction r = "fold" \/ resultAction r = "call")
                   /\ success (result r) = true) results
  /\ (length results <= length aiActions)%nat
  /\ humanPlayer e' = humanPlayer e.
Proof.
  unfold getBotStrategicResponses.
  pose proof (fold_left_respond_inv _ aiActions respond_results (e, [])
                (List.Forall_nil _)) as Hall.
  pose proof (fold_left_respond_inv _ aiActions
                (respond_keeps_human (humanPlayer e)) (e, []) eq_refl) as Hh.
  pose proof (responses_length aiActions 0 (e, []) (Nat.le_refl _)) as Hlen.
  destruct (fold_left (respond numberToString) aiActions (e, [])) as [e1 results].
  simpl in *. repeat split; [exact Hall | lia | exact Hh].
Qed.



(** Once the human has folded through [processHumanAction], every further
    call of it is rejected and leaves the engine as it is, whatever the bots
    did in between. *)
Theorem processHumanAction_after_fold
  (e : Engine) (amt : Z) (aiActions : list PokerAIDecision.ConcreteAction) :
  isActive (humanPlayer e) = true -> folded (humanPlayer e) = false ->
  let e' := fst (processHumanAction numberToString e "fold" amt aiActions) in
  humanPlayer e' = foldPlayer (humanPlayer e)
  /\ forall act' amt' aiActions',
       processHumanAction numberToString e' act' amt' aiActions'
       = (e', inr "Player is not active or has folded").
Proof.
  intros Ha Hf. cbv zeta.
  assert (Hh : humanPlayer (fst (processHumanAction numberToString e "fold" amt aiActions))
               = foldPlayer (humanPlayer e)).
  { unfold processHumanAction, validateAction. rewrite Ha, Hf. simpl.
    pose proof (getBotStrategicResponses_human
                  (logEvent (setPlayer e Human (foldPlayer (humanPlayer e)))
                     ("Human player fold with amount " +:+ pretty amt)) aiActions) as Hk.
    destruct (getBotStrategicResponses numberToString _ aiActions) as [e3 results].
    simpl in *. exact Hk. }
  split; [exact Hh|].
  intros act' amt' aiActions'. unfold processHumanAction at 1, validateAction.
  rewrite Hh. reflexivity.
Qed.

End Responses.



Lemma processHumanAction_after_fold_witness :
  isActive (humanPlayer headsUp) = true /\ folded (humanPlayer headsUp) = false
  /\ snd (processHumanAction Answers.showHalf
            (fst (processHumanAction Answers.showHalf headsUp "fold" 0
                    [Answers.botCalls 0]))
            "call" 0 [Answers.botCalls 0])
     = inr "Player is not active or has folded".
Proof.
  split; [reflexivity|]. split; [reflexivity|].
  destruct (processHumanAction_after_fold Answers.showHalf headsUp 0
              [Answers.botCalls 0] eq_refl eq_refl) as [_ H].
  rewrite H. reflexivity.
Defined.

End FlowProps.

(** ** Suit counting: what the [suitCounts] object holds *)

Module CountProps.
Import Cards PokerUtils Counting.

Lemma countAt_bumpSuit (s k : Suit) (m : list (Suit * Z)) :
  countAt s (bumpSuit k m) = countAt s m + (if decide (s = k) then 1 else 0).
Proof.
  induction m as [|[k' n] rest IH]; simpl.
  - destruct (decide (s = k)); lia.
  - destruct (decide (k = k')) as [->|Hkk']; simpl.
    + destruct (decide (s = k')); lia.
    + destruct (decide (s = k')) as [->|Hsk'].
      * destruct (decide (k' = k)); [congruence | lia].
      * exact IH.
Qed.

Lemma suitCount_cons (s k : Suit) (ss : list Suit) :
  suitCount s (k :: ss) = suitCount s ss + (if decide (s = k) then 1 else 0).
Proof.
  unfold suitCount. simpl.
  destruct (Suit_eq_dec k s) as [->|Hne].
  - destruct (decide (s = s)); [lia | contradiction].
  - destruct (decide (s = k)); [congruence | lia].
Qed.

Lemma countAt_fold (s : Suit) (ss : list Suit) (m : list (Suit * Z)) :
  countAt s (fold_left (fun m x => bumpSuit x m) ss m) = countAt s m + suitCount s ss.
Proof.
  revert m. induction ss as [|k ss IH]; intros m; simpl.
  - unfold suitCount. simpl. lia.
  - rewrite IH, countAt_bumpSuit, suitCount_cons. lia.
Qed.

(** The entries of a counting object: one per key, each count positive. *)
Lemma bumpSuit_keys (k : Suit) (m : list (Suit * Z)) :
  NoDup (map fst m) -> (forall s n, In (s, n) m -> 0 < n) ->
  NoDup (map fst (bumpSuit k m))
  /\ (forall s n, In (s, n) (bumpSuit k m) -> 0 < n)
  /\ (forall s, In s (map fst (bumpSuit k m)) -> s = k \/ In s (map fst m)).
Proof.
  induction m as [|[k' n] rest IH]; simpl; intros Hnd Hpos.
  - repeat split.
    + apply NoDup_singleton.
    + intros s n' [H|[]]. injection H as <- <-. lia.
    + intros s [H|[]]. auto.
  - apply NoDup_cons in Hnd. destruct Hnd as [Hnotin Hnd].
    destruct (decide (k = k')) as [->|Hkk']; simpl.
    + repeat split.
      * apply NoDup_cons. split; assumption.
      * intros s n' [H|H].
        -- injection H as <- <-. specialize (Hpos k' n (or_introl eq_refl)). lia.
        -- apply (Hpos s n'). right. exact H.
      * intros s [H|H]; auto.
    + destruct (IH Hnd (fun s n' H => Hpos s n' (or_intror H))) as (IH1 & IH2 & IH3).
      repeat split.
      * apply NoDup_cons. split; [|exact IH1].
        intros Hin. apply list_elem_of_In in Hin. apply IH3 in Hin.
        destruct Hin as [->|Hin]; [congruence|].
        apply Hnotin. apply list_elem_of_In. exact Hin.
      * intros s n' [H|H].
        -- injection H as <- <-. apply (Hpos k' n). left. reflexivity.
        -- apply (IH2 s n' H).
      * intros s [H|H]; auto. apply IH3 in H. destruct H; auto.
Qed.

Lemma counts_keys (ss : list Suit) (m : list (Suit * Z)) :
  NoDup (map fst m) -> (forall s n, In (s, n) m -> 0 < n) ->
  NoDup (map fst (fold_left (fun m x => bumpSuit x m) ss m))
  /\ (forall s n, In (s, n) (fold_left (fun m x => bumpSuit x m) ss m) -> 0 < n).
Proof.
  revert m. induction ss as [|k ss IH]; intros m Hnd Hpos; simpl; [auto|].
  destruct (bumpSuit_keys k m Hnd Hpos) as (H1 & H2 & _). apply IH; assumption.
Qed.

Lemma countAt_In (s : Suit) (n : Z) (m : list (Suit * Z)) :
  NoDup (map fst m) -> In (s, n) m -> countAt s m = n.
Proof.
  induction m as [|[k' n'] rest IH]; simpl; intros Hnd Hin; [destruct Hin|].
  apply NoDup_cons in Hnd. destruct Hnd as [Hnotin Hnd].
  destruct Hin as [H|H].
  - injection H as -> ->. destruct (decide (s = s)); [reflexivity | contradiction].
  - destruct (decide (s = k')) as [->|Hne]; [|exact (IH Hnd H)].
    exfalso. apply Hnotin. apply list_elem_of_In.
    apply (in_map fst) in H. exact H.
Qed.

Lemma countAt_found (s : Suit) (m : list (Suit * Z)) :
  countAt s m <> 0 -> In (s, countAt s m) m.
Proof.
  induction m as [|[k' n'] rest IH]; simpl; intros H; [contradiction|].
  destruct (decide (s = k')) as [->|Hne]; [left; reflexivity|].
  right. exact (IH H).
Qed.

(** The entries of [suitCounts] are exactly the suits present, each with
    the number of its cards. *)
Lemma suitCounts_entries (ss : list Suit) (s : Suit) (n : Z) :
  In (s, n) (fold_left (fun m x => bumpSuit x m) ss []) <->
  n = suitCount s ss /\ 0 < n.
Proof.
  destruct (counts_keys ss []) as [Hnd Hpos]; [apply NoDup_nil; exact I | intros ? ? [] |].
  pose proof (countAt_fold s ss []) as Hc. cbn [countAt] in Hc.
  rewrite Z.add_0_l in Hc. split.
  - intros Hin. split; [|exact (Hpos s n Hin)].
    rewrite <- (countAt_In s n _ Hnd Hin). exact Hc.
  - intros [-> Hn]. rewrite <- Hc. apply countAt_found. lia.
Qed.

Lemma mathMax_ge (xs : list Z) (m x : Z) :
  JS.mathMax xs = Some m -> In x xs -> x <= m.
Proof.
  destruct xs as [|y rest]; simpl; [discriminate|].
  intros H. injection H as <-.
  assert (Hmono : forall l a, a <= fold_left Z.max l a).
  { induction l as [|z l IH]; intros a; simpl; [lia|].
    specialize (IH (Z.max a z)). lia. }
  revert y. induction rest as [|z rest IH]; intros y Hin; simpl in *.
  - destruct Hin as [->|[]]. lia.
  - destruct Hin as [->|[->|H]].
    + specialize (Hmono rest (Z.max x z)). lia.
    + specialize (Hmono rest (Z.max y x)). lia.
    + apply IH. right. exact H.
Qed.

(** [Math.max(...Object.values(suitCounts)) >= t] says that some suit has at
    least [t] cards. *)
Lemma maxSuitCount_ge (ss : list Suit) (t : Z) :
  0 < t ->
  (match JS.mathMax (map snd (fold_left (fun m x => bumpSuit x m) ss [])) with
   | Some m => t <=? m
   | None => false
   end = true)
  <-> exists s, t <= suitCount s ss.
Proof.
  intros Ht. split.
  - destruct (JS.mathMax _) as [m|] eqn:Hmax; [|discriminate].
    intros Hle. apply Z.leb_le in Hle.
    apply UtilsProps.mathMax_In, in_map_iff in Hmax.
    destruct Hmax as ([s n] & Hn & Hin). simpl in Hn. subst n.
    apply suitCounts_entries in Hin. destruct Hin as [-> _].
    exists s. exact Hle.
  - intros [s Hs].
    assert (Hin : In (s, suitCount s ss) (fold_left (fun m x => bumpSuit x m) ss []))
      by (apply suitCounts_entries; split; [reflexivity | lia]).
    apply (in_map snd) in Hin. simpl in Hin.
    destruct (JS.mathMax _) as [m|] eqn:Hmax.
    + apply Z.leb_le. pose proof (mathMax_ge _ _ _ Hmax Hin). lia.
    + destruct (map snd _); [destruct Hin | discriminate].
Qed.

(** The four suit counts add up to the number of cards. *)
Lemma suitCount_total (ss : list Suit) :
  Z.of_nat (length ss)
  = suitCount hearts ss + suitCount diamonds ss + suitCount clubs ss
    + suitCount spades ss.
Proof.
  induction ss as [|k ss IH]; [reflexivity|].
  rewrite !suitCount_cons. simpl length.
  destruct k; repeat (destruct (decide _); try congruence); lia.
Qed.

Lemma suitCount_perm (s : Suit) (l1 l2 : list Suit) :
  Permutation l1 l2 -> suitCount s l1 = suitCount s l2.
Proof.
  intros H. unfold suitCount. f_equal.
  induction H; simpl; try destruct (Suit_eq_dec _ _); try destruct (Suit_eq_dec _ _);
    congruence.
Qed.

End CountProps.

(** ** Properties of the street transitions and of the board texture *)

Module StreetProps.
Import Cards PokerGameEngine GameFlow Table Counting.

(** Whatever the deal does, a [startRound] on a valid round name leaves
    every player with its stack and flags and a street bet of 0. *)
Theorem startRound_resets_bets
  (e : Engine) (rnd : string) (communityCards : list Card) (r : PlayerRef) :
  JS.includes validRounds rnd = true ->
  getPlayer (fst (startRound e rnd communityCards)) r
  = option_map resetBet (getPlayer e r).
Proof.
  intros Hvalid.
  assert (H3 : getPlayer (enterRound e rnd communityCards) r
               = option_map resetBet (getPlayer e r)).
  { destruct r as [|i]; simpl; [reflexivity|].
    rewrite list_lookup_fmap. destruct (bots e !! i); reflexivity. }
  assert (Hdeal : forall e', getPlayer (dealCard e') r = getPlayer e' r)
    by (intros e'; unfold dealCard; destruct (deck e'); reflexivity).
  unfold startRound. rewrite Hvalid. simpl negb. cbv iota.
  unfold dealFlop, dealTurn, dealRiver.
  repeat match goal with
         | |- context [if ?b then _ else _] => destruct b
         end; simpl fst;
    change (getPlayer (finishRound ?x rnd) r) with (getPlayer x r);
    change (getPlayer (logEvent ?x ?ev) r) with (getPlayer x r);
    rewrite ?Hdeal;
    try change (getPlayer (burnCard ?x) r) with (getPlayer x r);
    exact H3.
Qed.

Lemma startRound_resets_bets_witness :
  JS.includes validRounds "flop" = true
  /\ getPlayer (fst (startRound afterPreflop "flop" [])) (Bot 0)
     = Some (mkPlayer 90 false 0 true).
Proof.
  split; [reflexivity|].
  rewrite (startRound_resets_bets afterPreflop "flop" [] (Bot 0) eq_refl).
  reflexivity.
Defined.

(** Flop, turn and river in a row, each street handed the board the
    previous one left: from an empty board and at least eight cards, the
    three deals raise no error, burn the cards at positions 0, 4 and 6 of
    the deck and put those at positions 1, 2, 3, 5 and 7 on the board, in
    that order, leaving the rest of the deck. *)
Theorem three_streets_deal
  (bs : list Player) (h : Player) (rnd : string) (pot : Z) (board : list Card)
  (log : list LogEntry) (b0 c1 c2 c3 b1 c4 b2 c5 : Card) (rest : list Card) :
  let e := mkEngine bs h rnd pot board
             (b0 :: c1 :: c2 :: c3 :: b1 :: c4 :: b2 :: c5 :: rest) log in
  let flop := startRound e "flop" [] in
  let turn := startRound (fst flop) "turn" (boardCards (fst flop)) in
  let river := startRound (fst turn) "river" (boardCards (fst turn)) in
  snd flop = None /\ snd turn = None /\ snd river = None
  /\ boardCards (fst flop) = [c1; c2; c3]
  /\ boardCards (fst turn) = [c1; c2; c3; c4]
  /\ boardCards (fst river) = [c1; c2; c3; c4; c5]
  /\ deck (fst river) = rest
  /\ currentRound (fst river) = "river".
Proof. cbv zeta. repeat split; reflexivity. Qed.

(** A flop asked for, with no community cards handed in, on a deck of
    fewer than four cards throws, but only after the round name, the board,
    the pot and the street bets have been rewritten: the engine is left on
    the flop, its board replaced by the empty list handed in whatever it
    held before, the pot set to the street bets it found and every bet at
    0; the deck and the log are as they were. *)
Theorem startRound_flop_short_deck (e : Engine) :
  (length (deck e) < 4)%nat ->
  let (e', err) := startRound e "flop" [] in
  err = Some "Not enough cards in deck to deal flop"
  /\ currentRound e' = "flop" /\ boardCards e' = [] /\ deck e' = deck e
  /\ potSize e' = sumBets e
  /\ humanPlayer e' = resetBet (humanPlayer e)
  /\ bots e' = map resetBet (bots e)
  /\ gameLog e' = gameLog e.
Proof.
  intros Hlen. unfold startRound. simpl JS.includes. simpl negb. cbv iota.
  simpl String.eqb. cbn [andb boardCards enterRound updatePotSize setPot length Nat.eqb].
  unfold dealFlop. cbn [deck enterRound updatePotSize setPot].
  destruct (length (deck e) <? 4)%nat eqn:Hlt; [|apply Nat.ltb_ge in Hlt; lia].
  repeat split.
Qed.

Lemma startRound_flop_short_deck_witness :
  (length (deck (mkEngine [seat 100] (seat 100) "preflop" 0
                   [mkCard hearts RA] [mkCard clubs R9] [])) < 4)%nat
  /\ snd (startRound (mkEngine [seat 100] (seat 100) "preflop" 0
                        [mkCard hearts RA] [mkCard clubs R9] []) "flop" [])
     = Some "Not enough cards in deck to deal flop"
  /\ boardCards (fst (startRound (mkEngine [seat 100] (seat 100) "preflop" 0
                                    [mkCard hearts RA] [mkCard clubs R9] []) "flop" []))
     = [].
Proof.
  assert (H : (length (deck (mkEngine [seat 100] (seat 100) "preflop" 0
                               [mkCard hearts RA] [mkCard clubs R9] [])) < 4)%nat)
    by (simpl; lia).
  split; [exact H|].
  pose proof (startRound_flop_short_deck _ H) as K.
  destruct (startRound _ "flop" []) as [e' err].
  destruct K as (K1 & _ & K3 & _). split; [exact K1 | exact K3].
Defined.

(** The board texture: unknown below three cards, wet or dry from three
    cards on, and always wet once the board holds five cards or more, two of
    which must share a suit. *)
Theorem analyzeBoardTexture_classes (board : list Card) :
  ((length board < 3)%nat -> analyzeBoardTexture board = "unknown")
  /\ ((3 <= length board)%nat ->
      analyzeBoardTexture board = "wet" \/ analyzeBoardTexture board = "dry")
  /\ ((5 <= length board)%nat -> analyzeBoardTexture board = "wet").
Proof.
  unfold analyzeBoardTexture. repeat split.
  - intros H. apply Nat.ltb_lt in H. rewrite H. reflexivity.
  - intros H. destruct (length board <? 3)%nat eqn:Hlt; [apply Nat.ltb_lt in Hlt; lia|].
    apply Nat.leb_le in H. rewrite H.
    match goal with |- context [if ?b then _ else _] => destruct b end; auto.
  - intros H. destruct (length board <? 3)%nat eqn:Hlt; [apply Nat.ltb_lt in Hlt; lia|].
    assert (Hflush :
      match JS.mathMax
              (map snd (fold_left (fun m s => PokerUtils.bumpSuit s m) (map suit board) []))
      with Some m => 2 <=? m | None => false end = true).
    { apply CountProps.maxSuitCount_ge; [lia|].
      pose proof (CountProps.suitCount_total (map suit board)) as Htot.
      rewrite length_map in Htot.
      destruct (Z_le_gt_dec 2 (suitCount hearts (map suit board))); [eauto|].
      destruct (Z_le_gt_dec 2 (suitCount diamonds (map suit board))); [eauto|].
      destruct (Z_le_gt_dec 2 (suitCount clubs (map suit board))); [eauto|].
      destruct (Z_le_gt_dec 2 (suitCount spades (map suit board))); [eauto|].
      lia. }
    rewrite Hflush, orb_true_r. reflexivity.
Qed.

Lemma analyzeBoardTexture_classes_witness :
  (5 <= length [mkCard hearts R2; mkCard clubs R7; mkCard spades RQ;
                mkCard diamonds R2; mkCard hearts RK])%nat
  /\ analyzeBoardTexture [mkCard hearts R2; mkCard clubs R7; mkCard spades RQ;
                          mkCard diamonds R2; mkCard hearts RK] = "wet"
  /\ analyzeBoardTexture [mkCard hearts R2; mkCard clubs R7; mkCard spades RQ;
                          mkCard diamonds R2] = "dry".
Proof.
  assert (H : (5 <= length [mkCard hearts R2; mkCard clubs R7; mkCard spades RQ;
                            mkCard diamonds R2; mkCard hearts RK])%nat) by (simpl; lia).
  split; [exact H|]. split; [|reflexivity].
  exact (proj2 (proj2 (analyzeBoardTexture_classes _)) H).
Defined.

End StreetProps.

(** ** Properties of hand comparison, winners and card printing *)

Module UtilsMoreProps.
Import Cards PokerUtils UtilsText Counting.

(** Reading a rank's value and turning the value back into a rank gives
    the rank character the card started with, for all thirteen ranks. *)
Theorem getRankFromValue_getCardRankValue (r : Rank) :
  getRankFromValue (getCardRankValue r) = String (rankChar r) EmptyString
  /\ 2 <= getCardRankValue r <= 14.
Proof. destruct r; vm_compute; repeat split; intros; discriminate. Qed.

(** [comparePokerHands] is antisymmetric and answers only -1, 0 or 1:
    swapping the two hands negates the answer, and a hand ties with itself. *)
Theorem comparePokerHands_antisymmetric (hand1 communityCards hand2 : list Card) :
  comparePokerHands hand1 communityCards hand2
  = - comparePokerHands hand2 communityCards hand1
  /\ comparePokerHands hand1 communityCards hand1 = 0
  /\ (comparePokerHands hand1 communityCards hand2 = 1
      \/ comparePokerHands hand1 communityCards hand2 = 0
      \/ comparePokerHands hand1 communityCards hand2 = -1).
Proof.
  unfold comparePokerHands.
  set (v1 := value (evaluatePokerHand hand1 communityCards)).
  set (v2 := value (evaluatePokerHand hand2 communityCards)).
  rewrite Z.ltb_irrefl.
  destruct (Z.ltb_spec v2 v1), (Z.ltb_spec v1 v2); repeat split; auto; lia.
Qed.

(** For two active players, [determineWinners] and [comparePokerHands]
    agree: the first player wins alone exactly on 1, the second alone
    exactly on -1, and both are returned on 0. *)
Theorem determineWinners_agrees_with_compare (hand1 communityCards hand2 : list Card) :
  determineWinners [mkHandInfo true hand1; mkHandInfo true hand2] communityCards
  = if comparePokerHands hand1 communityCards hand2 =? 1 then [0%nat]
    else if comparePokerHands hand1 communityCards hand2 =? -1 then [1%nat]
    else [0%nat; 1%nat].
Proof.
  unfold determineWinners, evaluations, comparePokerHands. simpl.
  set (v1 := value (evaluatePokerHand hand1 communityCards)).
  set (v2 := value (evaluatePokerHand hand2 communityCards)).
  destruct (Z.ltb_spec v2 v1), (Z.ltb_spec v1 v2); simpl; try lia.
  - rewrite Z.max_l by lia. rewrite Z.eqb_refl.
    destruct (Z.eqb_spec v2 v1); [lia | reflexivity].
  - rewrite Z.max_r by lia. rewrite Z.eqb_refl.
    destruct (Z.eqb_spec v1 v2); [lia | reflexivity].
  - assert (v1 = v2) as -> by lia. rewrite Z.max_id, Z.eqb_refl. reflexivity.
Qed.

Lemma evaluations_seatValue (playerHands : list HandInfo) (communityCards : list Card) :
  evaluations playerHands communityCards
  = imap (fun i h => (i, seatValue communityCards h)) playerHands.
Proof.
  unfold evaluations. apply imap_ext. intros i h _. unfold seatValue.
  destruct (negb (active h)); reflexivity.
Qed.

(** On a table that is not empty, the winners are the seats whose value is
    the highest value at the table. *)
Lemma winners_at_max (playerHands : list HandInfo) (communityCards : list Card) :
  playerHands <> [] ->
  exists m,
    (forall k h, playerHands !! k = Some h -> seatValue communityCards h <= m)
    /\ (exists j hj, playerHands !! j = Some hj /\ seatValue communityCards hj = m)
    /\ forall i, In i (determineWinners playerHands communityCards)
         <-> exists h, playerHands !! i = Some h /\ seatValue communityCards h = m.
Proof.
  intros Hne. unfold determineWinners. rewrite evaluations_seatValue.
  replace (length playerHands =? 0)%nat with false
    by (destruct playerHands; [contradiction | reflexivity]).
  set (evals := imap (fun i h => (i, seatValue communityCards h)) playerHands).
  assert (Hev : forall k v, In (k, v) evals
                <-> exists h, playerHands !! k = Some h /\ v = seatValue communityCards h).
  { intros k v. unfold evals. rewrite <- list_elem_of_In, list_elem_of_lookup. split.
    - intros [n Hn]. apply list_lookup_imap_Some in Hn.
      destruct Hn as (h & Hh & Heq). injection Heq as -> ->. eauto.
    - intros (h & Hh & ->). exists k. apply list_lookup_imap_Some. eauto. }
  destruct (JS.mathMax (map snd evals)) as [m|] eqn:Hmax.
  2:{ destruct playerHands; [contradiction | discriminate]. }
  exists m. split; [|split].
  - intros k h Hk. apply (CountProps.mathMax_ge _ _ _ Hmax).
    apply in_map_iff. exists (k, seatValue communityCards h). split; [reflexivity|].
    apply Hev. eauto.
  - pose proof (UtilsProps.mathMax_In _ _ Hmax) as Hatt.
    apply in_map_iff in Hatt. destruct Hatt as ([jm vm] & Hvm & Hjm).
    simpl in Hvm. subst vm. apply Hev in Hjm. destruct Hjm as (hm & Hhm & Hmv).
    exists jm, hm. split; [exact Hhm | symmetry; exact Hmv].
  - intros i. rewrite in_map_iff. split.
    + intros ([k v] & Hk & Hin). simpl in Hk. subst k.
      apply filter_In in Hin. destruct Hin as [Hin Hv]. simpl in Hv.
      apply Z.eqb_eq in Hv. subst v.
      apply Hev in Hin. destruct Hin as (h & Hh & Hm). eauto.
    + intros (h & Hh & Hm). exists (i, m). split; [reflexivity|].
      apply filter_In. split; [apply Hev; eauto | apply Z.eqb_refl].
Qed.

(** The winners are exactly the seats whose value no other seat exceeds:
    an index is returned if and only if it is a seat of the table and every
    seat's value is at most its own. *)
Theorem determineWinners_are_the_best
  (playerHands : list HandInfo) (communityCards : list Card) (i : nat) :
  In i (determineWinners playerHands communityCards)
  <-> exists h, playerHands !! i = Some h
      /\ forall j hj, playerHands !! j = Some hj ->
         seatValue communityCards hj <= seatValue communityCards h.
Proof.
  destruct playerHands as [|h0 rest] eqn:Hph.
  { simpl. split; [intros [] | intros (h & H & _); discriminate]. }
  rewrite <- Hph.
  destruct (winners_at_max playerHands communityCards) as (m & Hle & (jm & hm & Hjm & Hm) & Hw);
    [subst; discriminate|].
  rewrite Hw. split.
  - intros (h & Hh & Hv). exists h. split; [exact Hh|].
    intros j hj Hj. rewrite Hv. exact (Hle j hj Hj).
  - intros (h & Hh & Hbest). exists h. split; [exact Hh|].
    pose proof (Hle i h Hh). pose proof (Hbest jm hm Hjm). lia.
Qed.

Lemma evaluatePokerHand_value_nonneg (holeCards communityCards : list Card) :
  0 <= value (evaluatePokerHand holeCards communityCards).
Proof.
  unfold evaluatePokerHand.
  destruct (length (holeCards ++ communityCards) <? 5)%nat; simpl; [lia|].
  match goal with
  | |- context [let '(a, b) := ?flags in _] => destruct flags as [sf rf]
  end.
  repeat match goal with
         | |- context [if ?b then _ else _] => destruct b
         end; simpl; lia.
Qed.

(** As soon as one player is active, no inactive player is among the
    winners: a folded hand can only win a table where everybody folded. *)
Theorem determineWinners_skips_inactive
  (playerHands : list HandInfo) (communityCards : list Card)
  (k : nat) (hk : HandInfo) (i : nat) :
  playerHands !! k = Some hk -> active hk = true ->
  In i (determineWinners playerHands communityCards) ->
  exists h, playerHands !! i = Some h /\ active h = true.
Proof.
  intros Hk Hact Hin.
  destruct (winners_at_max playerHands communityCards) as (m & Hle & _ & Hw);
    [intros ->; discriminate|].
  apply Hw in Hin. destruct Hin as (h & Hh & Hv). exists h. split; [exact Hh|].
  specialize (Hle k hk Hk). unfold seatValue in Hle, Hv. rewrite Hact in Hle.
  simpl in Hle. destruct (active h); [reflexivity|]. simpl in Hv.
  pose proof (evaluatePokerHand_value_nonneg (cards hk) communityCards). lia.
Qed.

Lemma determineWinners_skips_inactive_witness :
  determineWinners
    [mkHandInfo false [mkCard hearts RA; mkCard spades RA];
     mkHandInfo true [mkCard clubs R2; mkCard diamonds R7]] []
  = [1%nat]
  /\ exists h,
       [mkHandInfo false [mkCard hearts RA; mkCard spades RA];
        mkHandInfo true [mkCard clubs R2; mkCard diamonds R7]] !! 1%nat = Some h
       /\ active h = true.
Proof.
  split; [reflexivity|].
  apply (determineWinners_skips_inactive _ [] 1%nat
           (mkHandInfo true [mkCard clubs R2; mkCard diamonds R7]) 1%nat);
    [reflexivity | reflexivity | vm_compute; auto].
Defined.

Lemma rankChar_inj (r1 r2 : Rank) : rankChar r1 = rankChar r2 -> r1 = r2.
Proof. destruct r1, r2; intros H; try reflexivity; discriminate. Qed.

Lemma suitInitial_inj (s1 s2 : Suit) : suitInitial s1 = suitInitial s2 -> s1 = s2.
Proof. destruct s1, s2; intros H; try reflexivity; discriminate. Qed.

Lemma joinComma_cons (c : Card) (cs : list Card) :
  joinComma (map cardText (c :: cs))
  = String (rankChar (rank c))
      (String (suitInitial (suit c))
         (match cs with
          | [] => EmptyString
          | _ => String "," (String " " (joinComma (map cardText cs)))
          end)).
Proof. destruct cs; reflexivity. Qed.

(** [cardsToString] loses nothing: two lists of cards printed to the same
    text are the same list. *)
Theorem cardsToString_injective (cs1 cs2 : list Card) :
  cardsToString (Some cs1) = cardsToString (Some cs2) -> cs1 = cs2.
Proof.
  assert (Hjoin : forall cs, cardsToString (Some cs) = joinComma (map cardText cs))
    by (intros [|c cs]; reflexivity).
  rewrite !Hjoin. clear Hjoin. revert cs2.
  induction cs1 as [|c1 t1 IH]; intros [|c2 t2] H.
  - reflexivity.
  - rewrite joinComma_cons in H. discriminate.
  - rewrite joinComma_cons in H. discriminate.
  - rewrite !joinComma_cons in H. injection H as Hr Hs Ht.
    apply rankChar_inj in Hr. apply suitInitial_inj in Hs.
    assert (c1 = c2) as -> by (destruct c1, c2; simpl in *; congruence).
    f_equal. apply IH.
    destruct t1 as [|a1 u1], t2 as [|a2 u2]; try discriminate; [reflexivity|].
    injection Ht as Ht. exact Ht.
Qed.

Lemma cardsToString_injective_witness :
  cardsToString (Some [mkCard hearts RA; mkCard spades RT]) = "Ah, Ts"
  /\ [mkCard hearts RA; mkCard spades RT] = [mkCard hearts RA; mkCard spades RT].
Proof.
  split; [reflexivity|].
  exact (cardsToString_injective [mkCard hearts RA; mkCard spades RT]
           [mkCard hearts RA; mkCard spades RT] eq_refl).
Defined.

End UtilsMoreProps.

(** ** Properties of the hand evaluator *)

Module EvalProps.
Import Cards PokerUtils Counting.

Lemma suitCount_le_length (s : Suit) (ss : list Suit) :
  0 <= suitCount s ss <= Z.of_nat (length ss).
Proof.
  pose proof (CountProps.suitCount_total ss).
  assert (Hnn : forall k, 0 <= suitCount k ss) by (intros k; unfold suitCount; lia).
  pose proof (Hnn hearts). pose proof (Hnn diamonds).
  pose proof (Hnn clubs). pose proof (Hnn spades).
  destruct s; lia.
Qed.

(** A flush suit and the value: whenever five or more of the cards share a
    suit the value is at least 6, and the values 6, 9 and 10 (flush,
    straight flush, royal flush) are given only then. *)
Theorem evaluatePokerHand_flush (holeCards communityCards : list Card) :
  ((exists s, 5 <= suitCount s (suitsOf holeCards communityCards)) ->
   6 <= value (evaluatePokerHand holeCards communityCards))
  /\ (value (evaluatePokerHand holeCards communityCards) = 6
      \/ value (evaluatePokerHand holeCards communityCards) = 9
      \/ value (evaluatePokerHand holeCards communityCards) = 10 ->
      exists s, 5 <= suitCount s (suitsOf holeCards communityCards)).
Proof.
  pose proof (CountProps.maxSuitCount_ge (suitsOf holeCards communityCards) 5
                ltac:(lia)) as Hiff.
  unfold suitsOf in *. unfold evaluatePokerHand. split.
  - intros Hs. pose proof (proj2 Hiff Hs) as Hflush.
    destruct Hs as [s Hs].
    pose proof (suitCount_le_length s (map suit (holeCards ++ communityCards))) as Hl.
    rewrite length_map in Hl.
    destruct (length (holeCards ++ communityCards) <? 5)%nat eqn:Hlt;
      [apply Nat.ltb_lt in Hlt; lia|].
    cbv zeta. rewrite Hflush.
    match goal with
    | |- context [let '(a, b) := ?flags in _] => destruct flags as [sf rf]
    end.
    repeat match goal with
           | |- context [if ?b then _ else _] => destruct b
           end; simpl; lia.
  - destruct (length (holeCards ++ communityCards) <? 5)%nat;
      [simpl; intros [H|[H|H]]; discriminate|].
    cbv zeta.
    destruct (match JS.mathMax _ with Some m => 5 <=? m | None => false end) eqn:Hflush.
    + intros _. apply Hiff. reflexivity.
    + repeat match goal with
             | |- context [if ?b then _ else _] => destruct b
             end; simpl; intros [H|[H|H]]; discriminate.
Qed.

Lemma evaluatePokerHand_flush_witness :
  (exists s, 5 <= suitCount s
                    (suitsOf [mkCard hearts R2; mkCard hearts R9]
                       [mkCard hearts RK; mkCard hearts R4; mkCard hearts R7]))
  /\ 6 <= value (evaluatePokerHand [mkCard hearts R2; mkCard hearts R9]
                   [mkCard hearts RK; mkCard hearts R4; mkCard hearts R7]).
Proof.
  assert (H : exists s, 5 <= suitCount s
                (suitsOf [mkCard hearts R2; mkCard hearts R9]
                   [mkCard hearts RK; mkCard hearts R4; mkCard hearts R7]))
    by (exists hearts; vm_compute; discriminate).
  split; [exact H|].
  exact (proj1 (evaluatePokerHand_flush _ _) H).
Defined.

(** The three fields of a result always go together: the value alone
    tells the category, 0 and 1 both reading high_card. *)
Theorem evaluatePokerHand_category_of_value (holeCards communityCards : list Card) :
  let e := evaluatePokerHand holeCards communityCards in
  nth_error
    ["high_card"; "high_card"; "one_pair"; "two_pair"; "three_of_a_kind";
     "straight"; "flush"; "full_house"; "four_of_a_kind"; "straight_flush";
     "royal_flush"] (Z.to_nat (value e))
  = Some (category e)
  /\ (description e = "Incomplete hand" <-> value e = 0)
  /\ (details e = None <-> value e = 0).
Proof.
  unfold evaluatePokerHand.
  destruct (length (holeCards ++ communityCards) <? 5)%nat; simpl.
  - repeat split; auto.
  - match goal with
    | |- context [let '(a, b) := ?flags in _] => destruct flags as [sf rf]
    end.
    repeat match goal with
           | |- context [if ?b then _ else _] => destruct b
           end; simpl; repeat split; intros; discriminate.
Qed.

(** Sorting: [sortDesc] returns the one descending arrangement of its
    argument. *)
Lemma insertDesc_perm (x : Z) (l : list Z) : Permutation (JS.insertDesc x l) (x :: l).
Proof.
  induction l as [|y l IH]; simpl; [reflexivity|].
  destruct (y <? x); [reflexivity|].
  apply perm_trans with (y :: x :: l); [apply perm_skip; exact IH | apply perm_swap].
Qed.

Lemma sortDesc_perm (l : list Z) : Permutation (JS.sortDesc l) l.
Proof.
  induction l as [|x l IH]; simpl; [reflexivity|].
  apply perm_trans with (x :: JS.sortDesc l); [apply insertDesc_perm|].
  apply perm_skip. exact IH.
Qed.

Lemma insertDesc_sorted (x : Z) (l : list Z) :
  StronglySorted (fun a b => b <= a) l ->
  StronglySorted (fun a b => b <= a) (JS.insertDesc x l).
Proof.
  induction l as [|y l IH]; simpl; intros Hs.
  - repeat constructor.
  - apply StronglySorted_inv in Hs. destruct Hs as [Hs Hy].
    destruct (Z.ltb_spec y x).
    + constructor; [constructor; assumption|].
      constructor; [lia|].
      eapply Forall_impl; [exact Hy|]. simpl. intros z Hz. lia.
    + constructor; [apply IH; exact Hs|].
      apply (Permutation_Forall (Permutation_sym (insertDesc_perm x l))).
      constructor; [lia | exact Hy].
Qed.

Lemma sortDesc_sorted (l : list Z) :
  StronglySorted (fun a b => b <= a) (JS.sortDesc l).
Proof.
  induction l as [|x l IH]; simpl; [constructor|].
  apply insertDesc_sorted. exact IH.
Qed.

Lemma sortDesc_of_perm (l1 l2 : list Z) :
  Permutation l1 l2 -> JS.sortDesc l1 = JS.sortDesc l2.
Proof.
  intros H.
  apply (StronglySorted_unique_strong (fun a b : Z => b <= a)).
  - intros x1 x2 _ _ H1 H2. lia.
  - apply sortDesc_sorted.
  - apply sortDesc_sorted.
  - apply perm_trans with l1; [apply sortDesc_perm|].
    apply perm_trans with l2; [exact H|].
    apply Permutation_sym, sortDesc_perm.
Qed.

Lemma filter_perm {A : Type} (f : A -> bool) (l1 l2 : list A) :
  Permutation l1 l2 -> Permutation (List.filter f l1) (List.filter f l2).
Proof.
  intros H. induction H; simpl.
  - reflexivity.
  - destruct (f x); [apply perm_skip|]; assumption.
  - destruct (f x), (f y); try reflexivity. apply perm_swap.
  - eapply perm_trans; eassumption.
Qed.

(** One turn of the loop over the suits only adds to the two flags, and
    what it adds does not depend on the order of the cards. *)
Lemma suitedStep_adds (allCards : list Card) (sf rf : bool) (entry : Suit * Z) :
  suitedStep allCards (sf, rf) entry
  = (sf || fst (suitedStep allCards (false, false) entry),
     rf || snd (suitedStep allCards (false, false) entry)).
Proof.
  unfold suitedStep. destruct entry as [s cnt].
  destruct (5 <=? cnt); [|simpl; rewrite !orb_false_r; reflexivity].
  match goal with
  | |- context [(5 <=? length ?u)%nat] => destruct (5 <=? length u)%nat
  end; [|simpl; rewrite !orb_false_r; reflexivity].
  match goal with
  | |- context [existsb ?f ?l] => destruct (existsb f l)
  end;
  match goal with
  | |- context [hasWheel ?u] => destruct (hasWheel u)
  end;
  match goal with
  | |- context [hasRoyal ?u] => destruct (hasRoyal u)
  end; destruct sf, rf; reflexivity.
Qed.

Lemma suitedStep_of_perm (all1 all2 : list Card) (flags : bool * bool)
  (entry : Suit * Z) :
  Permutation all1 all2 -> suitedStep all1 flags entry = suitedStep all2 flags entry.
Proof.
  intros H. unfold suitedStep. destruct flags as [sf rf], entry as [s cnt].
  rewrite (sortDesc_of_perm
             (map (fun c => getCardRankValue (rank c))
                (List.filter (fun c => bool_decide (suit c = s)) all1))
             (map (fun c => getCardRankValue (rank c))
                (List.filter (fun c => bool_decide (suit c = s)) all2)));
    [reflexivity|].
  apply Permutation_map, filter_perm. exact H.
Qed.

Lemma flags_fold (allCards : list Card) (entries : list (Suit * Z)) (sf rf : bool) :
  fold_left (suitedStep allCards) entries (sf, rf)
  = (sf || existsb (fun en => fst (suitedStep allCards (false, false) en)) entries,
     rf || existsb (fun en => snd (suitedStep allCards (false, false) en)) entries).
Proof.
  revert sf rf. induction entries as [|en entries IH]; intros sf rf;
    cbn [fold_left existsb].
  - rewrite !orb_false_r. reflexivity.
  - rewrite suitedStep_adds, IH, !orb_assoc. reflexivity.
Qed.

Lemma existsb_same_elements {A : Type} (f g : A -> bool) (l1 l2 : list A) :
  (forall x, In x l1 <-> In x l2) -> (forall x, f x = g x) ->
  existsb f l1 = existsb g l2.
Proof.
  intros Hin Hfg. apply eq_true_iff_eq. rewrite !existsb_exists. split.
  - intros (x & Hx & Hf). exists x. split; [apply Hin; exact Hx | rewrite <- Hfg; exact Hf].
  - intros (x & Hx & Hg). exists x. split; [apply Hin; exact Hx | rewrite Hfg; exact Hg].
Qed.

(** The order of the cards does not matter: two hands made of the same
    cards, however split between hole and board and in whatever order, get
    the same value, category and description. *)
Theorem evaluatePokerHand_order_irrelevant
  (hole1 community1 hole2 community2 : list Card) :
  Permutation (hole1 ++ community1) (hole2 ++ community2) ->
  value (evaluatePokerHand hole1 community1) = value (evaluatePokerHand hole2 community2)
  /\ category (evaluatePokerHand hole1 community1)
     = category (evaluatePokerHand hole2 community2)
  /\ description (evaluatePokerHand hole1 community1)
     = description (evaluatePokerHand hole2 community2).
Proof.
  intros Hperm. unfold evaluatePokerHand.
  set (all1 := hole1 ++ community1) in *. set (all2 := hole2 ++ community2) in *.
  rewrite (Permutation_length Hperm).
  destruct (length all2 <? 5)%nat; [repeat split|].
  cbv zeta.
  assert (Hranks : JS.sortDesc (map (fun c => getCardRankValue (rank c)) all1)
                   = JS.sortDesc (map (fun c => getCardRankValue (rank c)) all2))
    by (apply sortDesc_of_perm, Permutation_map; exact Hperm).
  assert (Hsuits : Permutation (map suit all1) (map suit all2))
    by (apply Permutation_map; exact Hperm).
  assert (Hentries : forall en,
            In en (fold_left (fun m s => bumpSuit s m) (map suit all1) [])
            <-> In en (fold_left (fun m s => bumpSuit s m) (map suit all2) [])).
  { intros [s n]. rewrite !CountProps.suitCounts_entries.
    rewrite (CountProps.suitCount_perm s _ _ Hsuits). reflexivity. }
  assert (Hflush :
    match JS.mathMax (map snd (fold_left (fun m s => bumpSuit s m) (map suit all1) []))
    with Some m => 5 <=? m | None => false end
    = match JS.mathMax (map snd (fold_left (fun m s => bumpSuit s m) (map suit all2) []))
      with Some m => 5 <=? m | None => false end).
  { apply eq_true_iff_eq.
    rewrite !(CountProps.maxSuitCount_ge _ 5) by lia.
    split; intros [s Hs]; exists s.
    - rewrite <- (CountProps.suitCount_perm s _ _ Hsuits). exact Hs.
    - rewrite (CountProps.suitCount_perm s _ _ Hsuits). exact Hs. }
  assert (Hflags :
    fold_left (suitedStep all1)
      (fold_left (fun m s => bumpSuit s m) (map suit all1) []) (false, false)
    = fold_left (suitedStep all2)
        (fold_left (fun m s => bumpSuit s m) (map suit all2) []) (false, false)).
  { rewrite !flags_fold. f_equal; f_equal; apply existsb_same_elements; try exact Hentries;
      intros en; rewrite (suitedStep_of_perm all1 all2 _ en Hperm); reflexivity. }
  rewrite Hranks, Hflush, Hflags. clear Hranks Hflush Hflags Hentries.
  destruct (match JS.mathMax _ with Some m => 5 <=? m | None => false end).
  - destruct (fold_left (suitedStep all2) _ (false, false)) as [sf rf].
    repeat match goal with
           | |- context [if ?b then _ else _] => destruct b
           end; repeat split.
  - repeat match goal with
           | |- context [if ?b then _ else _] => destruct b
           end; repeat split.
Qed.

Lemma evaluatePokerHand_order_irrelevant_witness :
  Permutation ([mkCard hearts RA; mkCard hearts RK]
                 ++ [mkCard hearts RQ; mkCard hearts RJ; mkCard hearts RT])
    ([mkCard hearts RT; mkCard hearts RA]
       ++ [mkCard hearts RK; mkCard hearts RJ; mkCard hearts RQ])
  /\ value (evaluatePokerHand [mkCard hearts RT; mkCard hearts RA]
              [mkCard hearts RK; mkCard hearts RJ; mkCard hearts RQ]) = 10.
Proof.
  assert (H : Permutation
                ([mkCard hearts RA; mkCard hearts RK]
                   ++ [mkCard hearts RQ; mkCard hearts RJ; mkCard hearts RT])
                ([mkCard hearts RT; mkCard hearts RA]
                   ++ [mkCard hearts RK; mkCard hearts RJ; mkCard hearts RQ])).
  { simpl. apply Permutation_sym.
    apply (Permutation_cons_app [mkCard hearts RA; mkCard hearts RK;
                                  mkCard hearts RQ; mkCard hearts RJ] []).
    simpl. apply perm_skip.
    apply (Permutation_cons_app [] [mkCard hearts RQ; mkCard hearts RJ]).
    simpl. apply perm_swap. }
  split; [exact H|].
  destruct (evaluatePokerHand_order_irrelevant _ _ _ _ H) as [Hv _].
  rewrite <- Hv. reflexivity.
Defined.

End EvalProps.

(** ** Properties of the validation of advisory answers and of the mapping *)

Module AIMoreProps.
Import PokerAIDecision AIFallback Answers.

Lemma inUnit_true (q : Q) : inUnit q = true -> (0 <= q)%Q /\ (q <= 1)%Q.
Proof.
  unfold inUnit. intros H. apply negb_true_iff, orb_false_iff in H.
  destruct H as [H0 H1]. split; apply SetupProps.Qltb_false_le; assumption.
Qed.

Lemma isValidBotAction_true (a : BotAction) (legal : option (list string)) :
  isValidBotAction a legal = true ->
  0 <= botIndex a
  /\ ((0 <= confidence a)%Q /\ (confidence a <= 1)%Q)
  /\ exists b, actionBias a = Some b
       /\ In b ["fold"; "call"; "raise"]
       /\ forall la, legal = Some la -> JS.includes la b = true.
Proof.
  unfold isValidBotAction.
  destruct (Z.ltb_spec (botIndex a) 0); [discriminate|].
  destruct (Qltb (confidence a) 0 || Qltb 1 (confidence a)) eqn:Hc; [discriminate|].
  destruct (actionBias a) as [b|]; [|discriminate].
  destruct (JS.includes ["fold"; "call"; "raise"] b) eqn:Hb; [|discriminate].
  simpl negb. cbv iota. intros Hl.
  split; [assumption|]. split.
  { apply inUnit_true. unfold inUnit. rewrite Hc. reflexivity. }
  exists b. split; [reflexivity|]. split; [apply AIProps.includes_In; exact Hb|].
  intros la ->. exact Hl.
Qed.

(** An advisory answer that [isValidDecision] accepts has its three
    scalars in [0, 1], a known plan, and exactly one entry per bot stack;
    the entry at position [i] carries [botIndex = i], a confidence in
    [0, 1] and a bias among fold, call and raise that is also in the list
    of legal actions when that list is an array. *)
Theorem isValidDecision_sound (d : Decision) (gd : GameData) :
  isValidDecision d gd = Some true ->
  ((0 <= aggression d)%Q /\ (aggression d <= 1)%Q)
  /\ ((0 <= bluffFrequency d)%Q /\ (bluffFrequency d <= 1)%Q)
  /\ ((0 <= coordination d)%Q /\ (coordination d <= 1)%Q)
  /\ In (globalPlan d) validPlans
  /\ (exists stacks, botStacks gd = Some stacks
        /\ length (botActions d) = length stacks)
  /\ forall (i : nat) (a : BotAction),
       botActions d !! i = Some a ->
       botIndex a = Z.of_nat i
       /\ ((0 <= confidence a)%Q /\ (confidence a <= 1)%Q)
       /\ exists b, actionBias a = Some b
            /\ In b ["fold"; "call"; "raise"]
            /\ forall la, legalActions gd = Some la -> In b la.
Proof.
  unfold isValidDecision.
  destruct (inUnit (aggression d)) eqn:Ha; [|discriminate].
  destruct (inUnit (bluffFrequency d)) eqn:Hb; [|discriminate].
  destruct (inUnit (coordination d)) eqn:Hc; [|discriminate].
  destruct (JS.includes validPlans (globalPlan d)) eqn:Hp; [|discriminate].
  simpl negb. cbv iota.
  destruct (botStacks gd) as [stacks|]; [|discriminate].
  destruct (Nat.eqb_spec (length (botActions d)) (length stacks)) as [Hlen|];
    [|discriminate].
  simpl negb. cbv iota. intros H. injection H as H.
  split; [apply inUnit_true; exact Ha|].
  split; [apply inUnit_true; exact Hb|].
  split; [apply inUnit_true; exact Hc|].
  split; [apply AIProps.includes_In; exact Hp|].
  split; [exists stacks; auto|].
  intros i a Hi.
  rewrite forallb_forall in H.
  assert (Hin : In (i, a) (imap pair (botActions d))).
  { apply list_elem_of_In, list_elem_of_lookup. exists i.
    apply list_lookup_imap_Some. eauto. }
  specialize (H _ Hin). simpl in H. apply andb_true_iff in H. destruct H as [Hv Hidx].
  apply Z.eqb_eq in Hidx. split; [exact Hidx|].
  apply isValidBotAction_true in Hv. destruct Hv as (_ & Hconf & b & Hbias & Hb3 & Hla).
  split; [exact Hconf|]. exists b. split; [exact Hbias|]. split; [exact Hb3|].
  intros la Hl. apply AIProps.includes_In. exact (Hla la Hl).
Qed.

Lemma isValidDecision_sound_witness :
  isValidDecision okDecision okGame = Some true
  /\ In (globalPlan okDecision) validPlans.
Proof.
  assert (H : isValidDecision okDecision okGame = Some true) by reflexivity.
  split; [exact H|].
  destruct (isValidDecision_sound okDecision okGame H) as (_ & _ & _ & Hp & _).
  exact Hp.
Defined.

Lemma determineConcreteAction_passes
  (a : BotAction) (gs : GameData) (r : Q) (la : list string) (b : string) :
  legalActions gs = Some la -> actionBias a = Some b -> JS.includes la b = true ->
  determineConcreteAction a gs r = mkConcreteAction (botIndex a) b (confidence a).
Proof.
  intros Hl Hb Hinc. unfold determineConcreteAction. rewrite Hl, Hb.
  destruct la as [|first rest]; [discriminate|].
  rewrite Hinc. reflexivity.
Qed.

(** A validated answer is mapped as it stands: when the legal actions are
    an array and [isValidDecision] accepted the answer, [mapIntentToActions]
    returns for each entry its own index, bias and confidence, whatever the
    difficulty, the bet sizes and the random draws; every action returned
    is legal. *)
Theorem validated_decision_maps_unchanged
  (d : Decision) (gd : GameData) (la : list string) (random : nat -> Q) :
  isValidDecision d gd = Some true -> legalActions gd = Some la ->
  length (mapIntentToActions d gd random) = length (botActions d)
  /\ forall (i : nat) (c : ConcreteAction),
       mapIntentToActions d gd random !! i = Some c ->
       exists a, botActions d !! i = Some a
         /\ concreteBotIndex c = Z.of_nat i
         /\ actionBias a = Some (action c)
         /\ concreteConfidence c = confidence a
         /\ In (action c) la.
Proof.
  intros Hv Hl. unfold mapIntentToActions. split; [apply length_imap|].
  intros i c Hi. apply list_lookup_imap_Some in Hi. destruct Hi as (a & Ha & ->).
  exists a. split; [exact Ha|].
  unfold isValidDecision in Hv.
  destruct (negb (inUnit (aggression d))); [discriminate|].
  destruct (negb (inUnit (bluffFrequency d))); [discriminate|].
  destruct (negb (inUnit (coordination d))); [discriminate|].
  destruct (negb (JS.includes validPlans (globalPlan d))); [discriminate|].
  destruct (botStacks gd) as [stacks|]; [|discriminate].
  destruct (negb (length (botActions d) =? length stacks)%nat); [discriminate|].
  injection Hv as Hv. rewrite forallb_forall in Hv.
  assert (Hin : In (i, a) (imap pair (botActions d))).
  { apply list_elem_of_In, list_elem_of_lookup. exists i.
    apply list_lookup_imap_Some. eauto. }
  specialize (Hv _ Hin). simpl in Hv. apply andb_true_iff in Hv.
  destruct Hv as [Hva Hidx]. apply Z.eqb_eq in Hidx.
  apply isValidBotAction_true in Hva.
  destruct Hva as (_ & _ & b & Hb & _ & Hla).
  rewrite (determineConcreteAction_passes a gd (random i) la b Hl Hb (Hla la Hl)).
  simpl. repeat split; auto.
  apply AIProps.includes_In. exact (Hla la Hl).
Qed.

Lemma validated_decision_maps_unchanged_witness :
  isValidDecision okDecision okGame = Some true
  /\ legalActions okGame = Some ["fold"; "call"; "raise"]
  /\ length (mapIntentToActions okDecision okGame (fun _ => 1 # 2)) = 2%nat.
Proof.
  assert (H : isValidDecision okDecision okGame = Some true) by reflexivity.
  split; [exact H|]. split; [reflexivity|].
  destruct (validated_decision_maps_unchanged okDecision okGame _ (fun _ => 1 # 2)
              H eq_refl) as [Hlen _].
  rewrite Hlen. reflexivity.
Defined.

(** When the advisory path fails altogether, [generateFallbackActions]
    still answers for every bot: one entry per stack, at its own index,
    with confidence 0.5 and all with the same action, an element of the
    legal list when that list is not empty, and call whenever call is legal
    or no list is given. *)
Theorem generateFallbackActions_shape (gs : GameData) (stacks : list Z) :
  botStacks gs = Some stacks ->
  length (generateFallbackActions (Some gs)) = length stacks
  /\ forall (i : nat) (c : ConcreteAction),
       generateFallbackActions (Some gs) !! i = Some c ->
       concreteBotIndex c = Z.of_nat i
       /\ concreteConfidence c = (5 # 10)%Q
       /\ (forall la, legalActions gs = Some la -> la <> [] -> In (action c) la)
       /\ (forall la, legalActions gs = Some la -> JS.includes la "call" = true ->
           action c = "call")
       /\ (legalActions gs = None \/ legalActions gs = Some [] -> action c = "call").
Proof.
  intros Hst. unfold generateFallbackActions. rewrite Hst.
  split; [rewrite length_map, length_seq; reflexivity|].
  intros i c Hi. rewrite list_lookup_fmap in Hi.
  destruct (seq 0 (length stacks) !! i) as [j|] eqn:Hj; [|discriminate].
  apply lookup_seq in Hj. destruct Hj as [-> _].
  simpl in Hi. injection Hi as <-. simpl.
  split; [reflexivity|]. split; [reflexivity|].
  unfold fallbackAction. repeat split.
  - intros la -> Hne. destruct la as [|first rest]; [contradiction|].
    destruct (JS.includes (first :: rest) "call") eqn:Hc;
      [apply AIProps.includes_In; exact Hc | left; reflexivity].
  - intros la -> Hc. destruct la as [|first rest]; [reflexivity|].
    rewrite Hc. reflexivity.
  - intros [-> | ->]; reflexivity.
Qed.

Lemma generateFallbackActions_shape_witness :
  botStacks okGame = Some [900; 350]
  /\ length (generateFallbackActions (Some okGame)) = 2%nat.
Proof.
  split; [reflexivity|].
  destruct (generateFallbackActions_shape okGame [900; 350] eq_refl) as [H _].
  exact H.
Defined.

Lemma generateFallbackDecision_isValid_witness :
  botStacks okGame = Some [900; 350]
  /\ isValidDecision (generateFallbackDecision (Some okGame) (fun _ => 1 # 2)) okGame
     = Some true.
Proof.
  split; [reflexivity|].
  apply (AIProps.generateFallbackDecision_isValid okGame [900; 350]);
    [reflexivity | reflexivity |].
  intros _. split; [discriminate | reflexivity].
Defined.

End AIMoreProps.

(** ** Properties of calling, and hands the earlier facts are tried on *)

Module CallProps.
Import Cards PokerGameEngine Table.







Lemma startRound_first_street_witness :
  freshHand headsUp /\ JS.includes validRounds "flop" = true
  /\ potSize (fst (startRound
                     (applyAll headsUp
                        [mkCall Human "raise" 10; mkCall (Bot 0) "call" 0])
                     "flop" [])) = 20.
Proof.
  assert (Hfresh : freshHand headsUp).
  { split; [reflexivity|].
    split; intros r p H; destruct r as [|[|i]]; simpl in H; try discriminate;
      injection H as <-; simpl; lia. }
  split; [exact Hfresh|]. split; [reflexivity|].
  destruct (EngineProps.startRound_first_street headsUp
              [mkCall Human "raise" 10; mkCall (Bot 0) "call" 0] "flop" []
              Hfresh eq_refl) as [_ H].
  rewrite H. reflexivity.
Defined.

Lemma isHandComplete_sound_witness :
  isHandComplete (applyAll headsUp [mkCall (Bot 0) "fold" 0]) = true
  /\ (length (activeUnfolded (applyAll headsUp [mkCall (Bot 0) "fold" 0])) <= 1)%nat.
Proof.
  assert (H : isHandComplete (applyAll headsUp [mkCall (Bot 0) "fold" 0]) = true)
    by reflexivity.
  split; [exact H|].
  exact (EngineProps.isHandComplete_sound _ H).
Defined.

(** [resetRoundState] rewrites the per-hand fields and nothing else.  On an
    engine whose stacks are not negative it leaves a fresh hand (pot 0,
    every street bet 0, no negative stack) in which every seat is the seat
    it was with the same stack, its bet 0, not folded and active: no seat
    appears or vanishes, and the chips in the stacks are the same in total.
    The round is preflop, the board empty and the deck the shuffled one. *)
Theorem resetRoundState_keeps_stacks (e : Engine) (shuffled : list Card) :
  stacksNonneg e ->
  freshHand (resetRoundState e shuffled)
  /\ (forall r, getPlayer (resetRoundState e shuffled) r
                = option_map (fun p => mkPlayer (stack p) false 0 true)
                    (getPlayer e r))
  /\ (forall r, stackOf (resetRoundState e shuffled) r = stackOf e r)
  /\ length (bots (resetRoundState e shuffled)) = length (bots e)
  /\ totalStack (resetRoundState e shuffled) = totalStack e
  /\ currentRound (resetRoundState e shuffled) = "preflop"
  /\ boardCards (resetRoundState e shuffled) = []
  /\ deck (resetRoundState e shuffled) = shuffled.
Proof.
  intros He.
  assert (Hget : forall r, getPlayer (resetRoundState e shuffled) r
                           = option_map (fun p => mkPlayer (stack p) false 0 true)
                               (getPlayer e r)).
  { intros [|i]; simpl; [reflexivity|]. rewrite list_lookup_fmap.
    destruct (bots e !! i); reflexivity. }
  split; [exact (EngineProps.resetRoundState_fresh e shuffled He)|].
  split; [exact Hget|].
  split.
  { intros r. unfold stackOf. rewrite Hget.
    destruct (getPlayer e r); reflexivity. }
  split; [simpl; apply length_map|].
  split; [|repeat split].
  unfold totalStack, sumStacks, sumOf. simpl. f_equal.
  induction (bots e) as [|b bs IH]; [reflexivity|]. simpl. rewrite IH. reflexivity.
Qed.

Lemma resetRoundState_keeps_stacks_witness :
  stacksNonneg afterFlop
  /\ freshHand (resetRoundState afterFlop someDeck)
  /\ stackOf (resetRoundState afterFlop someDeck) Human = 85
  /\ stackOf (resetRoundState afterFlop someDeck) (Bot 0) = 85.
Proof.
  assert (H : stacksNonneg afterFlop).
  { intros r p Hp. destruct r as [|[|i]]; vm_compute in Hp; try discriminate;
      injection Hp as <-; simpl; lia. }
  split; [exact H|].
  destruct (resetRoundState_keeps_stacks afterFlop someDeck H) as (Hf & _ & Hs & _).
  split; [exact Hf|].
  rewrite !Hs. split; reflexivity.
Defined.

End CallProps.

(** ** [validateAction] and [applyAction] on an amount that is not a whole number *)

Module DoubleProps.
Import DoubleEngine.

(** C1 as stated fails on a fractional amount.  On a fresh heads-up hand of
    100 chips each (pot 0, no street bet) the human raises 10.1.  The call
    succeeds; the pot becomes the double 10.1, that is
    5685794529555251 / 2^49, while the stack becomes the double nearest to
    89.9, 6326150101571994 / 2^46, and has decreased by
    355362158097203 / 2^45 = 5685794529555248 / 2^49, which is less.  The
    comparison JavaScript itself would make, [potSize === 100 - stack], is
    false too. *)
Lemma applyAction_fractional_raise_breaks_pot_sum :
  potSize headsUp = ofZ 0
  /\ Forall (fun p => betInCurrentRound p = ofZ 0 /\ stack p = ofZ 100)
       (humanPlayer headsUp :: bots headsUp)
  /\ tenPointOne = SpecFloat.S754_finite false 5685794529555251 (-49)
  /\ success (snd fractionalRaise) = true
  /\ potSize (fst fractionalRaise) = tenPointOne
  /\ stack (humanPlayer (fst fractionalRaise))
     = SpecFloat.S754_finite false 6326150101571994 (-46)
  /\ exact (potSize (fst fractionalRaise))
     = Some (5685794529555251 # 562949953421312)
  /\ totalDecrease headsUp (fst fractionalRaise)
     = Some (355362158097203 # 35184372088832)
  /\ (355362158097203 # 35184372088832 < 5685794529555251 # 562949953421312)%Q
  /\ eqb (potSize (fst fractionalRaise))
       (sub (ofZ 100) (stack (humanPlayer (fst fractionalRaise)))) = false.
Proof.
  split; [reflexivity|].
  split; [repeat constructor|].
  repeat (split; [vm_compute; reflexivity|]).
  vm_compute. reflexivity.
Qed.

(** The raise of 10.1 is one [validateAction] accepts: it is positive,
    within the stack and not below the minimum raise of 10. *)
Lemma validateAction_accepts_fraction (numberToString : double -> string) :
  GameFlow.valid
    (validateAction numberToString headsUp (humanPlayer headsUp) "raise" tenPointOne)
  = true.
Proof. vm_compute. reflexivity. Qed.

Lemma ltb_nan_r (x : double) : ltb x nan = false.
Proof. destruct x as [[]|[]| |[] ? ?]; reflexivity. Qed.

(** [NaN] is of type number and fails every comparison, so a raise of [NaN]
    by a player still in the hand passes [validateAction], whatever the
    stacks and the bets are.  [applyAction] then moves nothing, as
    [Math.min(NaN, stack)] is [NaN] and [NaN > 0] is false: the engine is
    left as it was, and the result still reports success, with amount [NaN]
    and the stack untouched. *)
Theorem NaN_raise_validates_and_moves_nothing
  (numberToString : double -> string) (e : Engine)
  (r : PokerGameEngine.PlayerRef) (p : Player) :
  getPlayer e r = Some p -> isActive p = true -> folded p = false ->
  GameFlow.valid (validateAction numberToString e p "raise" nan) = true
  /\ applyAction e r "raise" nan
     = (e, mkResult true "raise" (Some nan) (Some (stack p)) None).
Proof.
  intros Hp Ha Hf. split.
  - unfold validateAction. rewrite Ha, Hf. simpl.
    rewrite ltb_nan_r. reflexivity.
  - unfold applyAction. simpl String.eqb. cbv iota. rewrite Hp. reflexivity.
Qed.

Lemma NaN_raise_validates_and_moves_nothing_witness :
  GameFlow.valid (validateAction plainText headsUp (humanPlayer headsUp) "raise" nan)
  = true
  /\ fst (applyAction headsUp PokerGameEngine.Human "raise" nan) = headsUp
  /\ success (snd (applyAction headsUp PokerGameEngine.Human "raise" nan)) = true.
Proof.
  destruct (NaN_raise_validates_and_moves_nothing plainText headsUp
              PokerGameEngine.Human (humanPlayer headsUp) eq_refl eq_refl eq_refl)
    as [Hv Ha].
  split; [exact Hv|]. rewrite Ha. split; reflexivity.
Defined.

(** The same hand on whole chips, a raise of 10 answered by a call, keeps
    the pot equal to what has left the stacks. *)
Lemma applyAction_whole_raise_keeps_pot_sum :
  exact (potSize wholeRaise) = Some (20 # 1)
  /\ totalDecrease headsUp wholeRaise = Some (20 # 1).
Proof.
  split; vm_compute; reflexivity.
Qed.

End DoubleProps.
